(** * A shallow embedding of the load balancer

    The Go sources embedded here are [backend.go], [least-conn.go],
    [loadbalancer.go], [proxy.go] (the three hooks of the reverse proxy and
    the [RoundRobin] strategy) and [main.go] (the version that registers
    the two handlers on a mux).

    Conventions of the embedding:
    - Go's [int] and [int64] are 64-bit two's complement integers; they are
      modelled as [Z] and every addition that can overflow is wrapped
      explicitly with [Int64.wrap].
    - A [*Backend] is a position in the balancer's backend slice, which is
      allocated once in [main] and never changes length; [nil] is [None].
    - The mutexes are taken and released inside every method, so a method
      is one atomic state transition; the lock words are not part of the
      state.
    - A Go run-time panic is the [Panic] result; [OutOfFuel] is the result
      of a loop that was not given enough iterations, and no call ends with
      it ([NextBackend_terminates]).
    - What the program gets from Go's standard library (the response
      writer, the request context, the mux, the reverse proxy that calls
      the three hooks) is modelled by the few definitions of [http],
      [context], [main.mux] and [Proxy.ServeHTTP], each with the library
      behaviour it stands for in its comment. *)

From stdpp Require Import base numbers list strings.
From Stdlib Require Import ZArith Lia.

#[local] Open Scope Z_scope.

(** ** Machine integers *)

Module Int64.

Definition MaxInt64 : Z := 9223372036854775807.
Definition MinInt64 : Z := -9223372036854775808.

Definition in_range (z : Z) : Prop := MinInt64 <= z <= MaxInt64.

(** Two's complement wrap-around of a mathematical integer. *)
Definition wrap (z : Z) : Z :=
  (z + 9223372036854775808) `mod` 18446744073709551616 - 9223372036854775808.

(** [atomic.AddInt64(&x, delta)] and [x++] on a 64-bit integer. *)
Definition add (x delta : Z) : Z := wrap (x + delta).

End Int64.

(** ** Results of Go calls *)

Inductive result (A : Type) : Type :=
| Ok (a : A)
| Panic (msg : string)
| OutOfFuel.
Arguments Ok {A} a.
Arguments Panic {A} msg.
Arguments OutOfFuel {A}.

(** A slice index expression [s[i]] with Go's bounds check. *)
Definition at_index {A : Type} (s : list A) (i : Z) : option A :=
  if bool_decide (0 <= i) then s !! Z.to_nat i else None.

(** ** backend.go *)

Record Backend : Type := mkBackend {
  URL : string;
  Healthy : bool;
  failureCount : Z;
  ActiveConnections : Z
}.

Definition IsHealthy (b : Backend) : bool := Healthy b.

Definition MarkHealthy (b : Backend) : Backend :=
  {| URL := URL b;
     Healthy := true;
     failureCount := 0;
     ActiveConnections := ActiveConnections b |}.

Definition MarkUnHealthy (b : Backend) : Backend :=
  {| URL := URL b;
     Healthy := false;
     failureCount := failureCount b;
     ActiveConnections := ActiveConnections b |}.

Definition IncrementFailure (b : Backend) : Backend :=
  let count := Int64.add (failureCount b) 1 in
  {| URL := URL b;
     Healthy := if bool_decide (5 <= count) then false else Healthy b;
     failureCount := count;
     ActiveConnections := ActiveConnections b |}.

(** The three operations that write the health fields, and their runs. *)
Inductive BackendOp : Type := OpMarkHealthy | OpMarkUnHealthy | OpIncrementFailure.

Definition apply_op (b : Backend) (op : BackendOp) : Backend :=
  match op with
  | OpMarkHealthy => MarkHealthy b
  | OpMarkUnHealthy => MarkUnHealthy b
  | OpIncrementFailure => IncrementFailure b
  end.

Definition apply_ops (b : Backend) (ops : list BackendOp) : Backend :=
  foldl apply_op b ops.

(** The data-model invariant of a backend record. *)
Definition threshold_inv (b : Backend) : Prop :=
  5 <= failureCount b -> Healthy b = false.

(** [atomic.AddInt64(&backend.ActiveConnections, delta)]. *)
Definition AddActiveConnections (delta : Z) (b : Backend) : Backend :=
  {| URL := URL b;
     Healthy := Healthy b;
     failureCount := failureCount b;
     ActiveConnections := Int64.add (ActiveConnections b) delta |}.

(** ** proxy.go: the [RoundRobin] strategy *)

Module RoundRobin.

Record t : Type := mk { index : Z }.

(** [&RoundRobin{}] *)
Definition zero : t := {| index := 0 |}.

(** What one call leaves behind: the returned pointer (or the panic), the
    strategy's state, and, as a ghost record, the slice positions that the
    call indexed, in order. *)
Record run : Type := mkRun {
  ret : result (option nat);
  state : t;
  accessed : list Z
}.

(** The [for { ... }] loop of [NextBackend]; [fuel] bounds the number of
    iterations. [rr.index + 1] is not wrapped: it is computed only after
    [backends[rr.index]] succeeded, so [rr.index] is below the length of
    the slice, which fits an [int]. *)
Fixpoint loop (fuel : nat) (backends : list Backend) (start : Z)
    (rr : t) (seen : list Z) : run :=
  match fuel with
  | O => mkRun OutOfFuel rr seen
  | S fuel' =>
    let seen' := seen ++ [index rr] in
    match at_index backends (index rr) with
    | None => mkRun (Panic "index out of range"%string) rr seen'
    | Some backend =>
      let rr' := {| index := Z.rem (index rr + 1) (Z.of_nat (length backends)) |} in
      if IsHealthy backend then
        mkRun (Ok (Some (Z.to_nat (index rr)))) rr' seen'
      else if bool_decide (start = index rr') then
        mkRun (Ok None) rr' seen'
      else loop fuel' backends start rr' seen'
    end
  end.

Definition NextBackend (backends : list Backend) (rr : t) : run :=
  loop (S (length backends)) backends (index rr) rr [].

Definition Name : string := "round-robin"%string.

(** Consecutive calls on the same strategy object. The slice header never
    changes between calls, but the health flags behind its pointers may, so
    each call is given the slice contents it finds. *)
Fixpoint runs (snapshots : list (list Backend)) (rr : t) : list run :=
  match snapshots with
  | [] => []
  | backends :: later =>
    let r := NextBackend backends rr in
    r :: runs later (state r)
  end.

(** [n] consecutive calls while no backend record changes. *)
Definition calls (n : nat) (backends : list Backend) (rr : t) : list run :=
  runs (replicate n backends) rr.

End RoundRobin.

(** ** least-conn.go *)

Module LeastConnection.

(** The [range] loop: [pos] is the position of the head of [backends] in
    the scanned slice, [best] and [min] are the loop's two variables. *)
Fixpoint scan (pos : nat) (backends : list Backend) (best : option nat)
    (min : Z) : option nat :=
  match backends with
  | [] => best
  | backend :: rest =>
    if negb (IsHealthy backend) then scan (S pos) rest best min
    else
      let conns := ActiveConnections backend in
      if bool_decide (conns < min) then scan (S pos) rest (Some pos) conns
      else scan (S pos) rest best min
  end.

Definition NextBackend (backends : list Backend) : option nat :=
  scan 0 backends None Int64.MaxInt64.

Definition Name : string := "least-connection"%string.

End LeastConnection.

(** ** loadbalancer.go *)

(** The two implementations of the [BalancerAlgorithm] interface, each with
    the state of the object the interface value points to. *)
Inductive BalancerAlgorithm : Type :=
| AlgoRoundRobin (rr : RoundRobin.t)
| AlgoLeastConnection.

Definition algorithm_Name (algo : BalancerAlgorithm) : string :=
  match algo with
  | AlgoRoundRobin _ => RoundRobin.Name
  | AlgoLeastConnection => LeastConnection.Name
  end.

(** Dynamic dispatch of [algo.NextBackend(backends)]. *)
Definition algorithm_NextBackend (algo : BalancerAlgorithm)
    (backends : list Backend) : result (option nat) * BalancerAlgorithm :=
  match algo with
  | AlgoRoundRobin rr =>
    let r := RoundRobin.NextBackend backends rr in
    (RoundRobin.ret r, AlgoRoundRobin (RoundRobin.state r))
  | AlgoLeastConnection =>
    (Ok (LeastConnection.NextBackend backends), AlgoLeastConnection)
  end.

Module url.

(** The fields of [url.URL] that the program reads or writes; [Query] is
    the decoded query string, one pair per parameter, in order. *)
Record t : Type := mk {
  Scheme : string;
  Host : string;
  Path : string;
  Query : list (string * string)
}.

(** [&url.URL{}] *)
Definition empty : t :=
  {| Scheme := ""; Host := ""; Path := ""; Query := [] |}.

(** [u.Query().Get(key)]: the first value of [key], or the empty string. *)
Fixpoint Get (q : list (string * string)) (key : string) : string :=
  match q with
  | [] => ""
  | (k, v) :: rest => if bool_decide (k = key) then v else Get rest key
  end.

End url.

(** The keys and the values that [proxy.go] stores in a request context. *)
Inductive ctxKey : Type := startTimeKey | loadBalancerErrKey | backendKey.

#[global] Instance ctxKey_eq_dec : EqDecision ctxKey.
Proof. solve_decision. Defined.

Inductive ctxValue : Type :=
| TimeValue (t : Z)
| StringValue (s : string)
| BackendValue (p : nat).

Module context.

(** A context is the chain of its [WithValue] bindings, innermost first. *)
Definition t : Type := list (ctxKey * ctxValue).

Definition WithValue (parent : t) (key : ctxKey) (val : ctxValue) : t :=
  (key, val) :: parent.

Fixpoint Value (ctx : t) (key : ctxKey) : option ctxValue :=
  match ctx with
  | [] => None
  | (k, v) :: parent => if bool_decide (k = key) then Some v else Value parent key
  end.

End context.

Module http.

Definition MethodPost : string := "POST".
Definition StatusOK : Z := 200.
Definition StatusBadRequest : Z := 400.
Definition StatusNotFound : Z := 404.
Definition StatusBadGateway : Z := 502.

Record Request : Type := mkRequest {
  Method : string;
  URL : url.t;
  ctx : context.t
}.

(** [r.WithContext(ctx)]: a shallow copy of [r] with another context. *)
Definition WithContext (r : Request) (c : context.t) : Request :=
  {| Method := Method r; URL := URL r; ctx := c |}.

(** The response as the client gets it: the status line is fixed by the
    first [WriteHeader]; later calls are ignored (the server only logs them
    as superfluous), and a [Write] before any [WriteHeader] sends 200. *)
Record ResponseWriter : Type := mkResponseWriter {
  status : option Z;
  body : string;
  superfluous : nat
}.

Definition fresh : ResponseWriter :=
  {| status := None; body := ""; superfluous := 0 |}.

Definition WriteHeader (w : ResponseWriter) (code : Z) : ResponseWriter :=
  match status w with
  | None => {| status := Some code; body := body w; superfluous := superfluous w |}
  | Some _ => {| status := status w; body := body w; superfluous := S (superfluous w) |}
  end.

Definition Write (w : ResponseWriter) (data : string) : ResponseWriter :=
  {| status := Some (default StatusOK (status w));
     body := String.append (body w) data;
     superfluous := superfluous w |}.

End http.

Module LoadBalancer.

Record t : Type := mk {
  backends : list Backend;
  index : Z;
  algorithm : option BalancerAlgorithm
}.

Definition with_backends (lb : t) (bs : list Backend) : t :=
  {| backends := bs; index := index lb; algorithm := algorithm lb |}.

(** [SetAlgorithm], for a non-nil [algo]; the log line it prints is not
    part of the state. *)
Definition SetAlgorithm (lb : t) (algo : BalancerAlgorithm) : t :=
  {| backends := backends lb; index := index lb; algorithm := Some algo |}.

Definition NextBackend (lb : t) : result (option nat) * t :=
  let algo :=
    match algorithm lb with
    | None => AlgoRoundRobin RoundRobin.zero
    | Some algo => algo
    end in
  let '(backend, algo') := algorithm_NextBackend algo (backends lb) in
  (backend, {| backends := backends lb; index := index lb; algorithm := Some algo' |}).

(** [ServeHTTP]. Only the [default] case of the switch returns; the two
    recognised cases fall out of the [if] into the final [WriteHeader]. *)
Definition ServeHTTP (lb : t) (w : http.ResponseWriter) (r : http.Request)
    : t * http.ResponseWriter :=
  let '(lb', w', returned) :=
    if bool_decide (url.Path (http.URL r) = "/change-algorithm")
       && bool_decide (http.Method r = http.MethodPost)
    then
      let algorithm := url.Get (url.Query (http.URL r)) "algorithm" in
      if bool_decide (algorithm = "round-robin") then
        (SetAlgorithm lb (AlgoRoundRobin RoundRobin.zero),
         http.WriteHeader w http.StatusOK, false)
      else if bool_decide (algorithm = "least-connection") then
        (SetAlgorithm lb AlgoLeastConnection,
         http.WriteHeader w http.StatusOK, false)
      else (lb, http.WriteHeader w http.StatusBadRequest, true)
    else (lb, w, false) in
  if returned : bool then (lb', w')
  else (lb', http.WriteHeader w' http.StatusNotFound).

(** [n] consecutive calls of [NextBackend]; the results in call order. *)
Fixpoint NextBackends (n : nat) (lb : t) : list (result (option nat)) * t :=
  match n with
  | O => ([], lb)
  | S n' =>
    let '(backend, lb') := NextBackend lb in
    let '(rest, lb'') := NextBackends n' lb' in
    (backend :: rest, lb'')
  end.

(** What [client.Get(backend.URL + "/health")] came to in one round of a
    health-check goroutine: an error (timeout included) or a response. *)
Inductive ProbeResult : Type :=
| ProbeError
| ProbeStatus (StatusCode : Z).

#[global] Instance ProbeResult_eq_dec : EqDecision ProbeResult.
Proof. solve_decision. Defined.

Definition probe_url (b : Backend) : string := String.append (URL b) "/health".

(** The [if err != nil || resp.StatusCode != http.StatusOK] of the round. *)
Definition probed (res : ProbeResult) (b : Backend) : Backend :=
  match res with
  | ProbeError => MarkUnHealthy b
  | ProbeStatus code =>
    if negb (bool_decide (code = http.StatusOK)) then MarkUnHealthy b
    else MarkHealthy b
  end.

(** One round of the loop that [StartHealthCheck] starts for the backend at
    position [p], from the end of its sleep on. The goroutines run
    independently, so rounds of different backends come in any order. *)
Definition HealthCheckRound (lb : t) (p : nat) (res : ProbeResult) : t :=
  with_backends lb (alter (probed res) p (backends lb)).

End LoadBalancer.

(** ** proxy.go: the reverse proxy *)

Module Proxy.

(** What the forwarded call to the backend came to: [Transport.RoundTrip]
    either fails or yields a response (of any status code). *)
Inductive RoundTrip : Type :=
| TransportError
| Response (StatusCode : Z) (payload : string).

(** [Director] assigns through its pointer parameter ([r.URL = ...]),
    which the caller sees, and finally rebinds the parameter itself
    ([r = r.WithContext(ctx)]), which only the closure sees. [hooks_request]
    says which of the two requests reaches [ErrorHandler] and
    [ModifyResponse]: [CallerObject] is Go's parameter passing,
    [DirectorLocal] the reading in which the rebinding had reached them. *)
Inductive Handoff : Type := CallerObject | DirectorLocal.

Record directed : Type := mkDirected {
  outcome : result unit;
  lb_after : LoadBalancer.t;
  caller_request : http.Request;
  local_request : http.Request
}.

Definition hooks_request (h : Handoff) (d : directed) : http.Request :=
  match h with
  | CallerObject => caller_request d
  | DirectorLocal => local_request d
  end.

Section WithLibrary.

(** [url.Parse], with [None] for the [nil] URL it returns with an error. *)
Variable url_Parse : string -> option url.t.

Definition Director (lb : LoadBalancer.t) (now : Z) (r : http.Request) : directed :=
  let ctx := context.WithValue (http.ctx r) startTimeKey (TimeValue now) in
  match LoadBalancer.NextBackend lb with
  | (Ok None, lb1) =>
    let ctx := context.WithValue ctx loadBalancerErrKey
                 (StringValue "no healthy backend") in
    let r1 := {| http.Method := http.Method r; http.URL := url.empty;
                 http.ctx := http.ctx r |} in
    mkDirected (Ok tt) lb1 r1 (http.WithContext r1 ctx)
  | (Ok (Some p), lb1) =>
    let lb2 := LoadBalancer.with_backends lb1
                 (alter (AddActiveConnections 1) p (LoadBalancer.backends lb1)) in
    let ctx := context.WithValue ctx backendKey (BackendValue p) in
    match LoadBalancer.backends lb2 !! p with
    | None => mkDirected (Panic "nil pointer dereference") lb2 r r
    | Some backend =>
      match url_Parse (URL backend) with
      | None => mkDirected (Panic "nil pointer dereference") lb2 r r
      | Some target =>
        let u := http.URL r in
        let r1 := {| http.Method := http.Method r;
                     http.URL := {| url.Scheme := url.Scheme target;
                                    url.Host := url.Host target;
                                    url.Path := String.append (url.Path target) (url.Path u);
                                    url.Query := url.Query u |};
                     http.ctx := http.ctx r |} in
        mkDirected (Ok tt) lb2 r1 (http.WithContext r1 ctx)
      end
    end
  | (Panic msg, lb1) => mkDirected (Panic msg) lb1 r r
  | (OutOfFuel, lb1) => mkDirected OutOfFuel lb1 r r
  end.

Definition ErrorHandler (lb : LoadBalancer.t) (w : http.ResponseWriter)
    (r : http.Request) : result unit * LoadBalancer.t * http.ResponseWriter :=
  match context.Value (http.ctx r) loadBalancerErrKey with
  | Some _ =>
    let w := http.WriteHeader w http.StatusBadGateway in
    (Ok tt, lb, http.Write w "no healthy backend available")
  | None =>
    let bad_gateway lb :=
      let w := http.WriteHeader w http.StatusBadGateway in
      (Ok tt, lb, http.Write w "Bad Gateway") in
    match context.Value (http.ctx r) backendKey with
    | Some (BackendValue p) =>
      bad_gateway (LoadBalancer.with_backends lb
                     (alter IncrementFailure p (LoadBalancer.backends lb)))
    | Some _ => (Panic "interface conversion", lb, w)
    | None => bad_gateway lb
    end
  end.

(** [ModifyResponse]; [r] is [resp.Request]. It always returns [nil]. *)
Definition ModifyResponse (lb : LoadBalancer.t) (r : http.Request)
    : result unit * LoadBalancer.t :=
  match context.Value (http.ctx r) backendKey with
  | Some (BackendValue p) =>
    (Ok tt, LoadBalancer.with_backends lb
              (alter (AddActiveConnections (-1)) p (LoadBalancer.backends lb)))
  | Some _ => (Panic "interface conversion", lb)
  | None => (Ok tt, lb)
  end.

(** The transport refuses a URL without a scheme, which is how [Director]
    forces the error path when no backend was selected. *)
Definition transport (r : http.Request) (rt : RoundTrip) : RoundTrip :=
  if bool_decide (url.Scheme (http.URL r) = "") then TransportError else rt.

(** One request through [httputil.ReverseProxy] with the three hooks of
    [configureReverseProxy]: [Director] on the outgoing request, the round
    trip, then [ErrorHandler] on a transport error and [ModifyResponse]
    (followed by the copy of the response to the client) otherwise. *)
Definition ServeHTTP (h : Handoff) (rt : RoundTrip) (now : Z)
    (lb : LoadBalancer.t) (w : http.ResponseWriter) (r : http.Request)
    : result unit * LoadBalancer.t * http.ResponseWriter :=
  let d := Director lb now r in
  match outcome d with
  | Ok _ =>
    let outreq := hooks_request h d in
    match transport (caller_request d) rt with
    | TransportError => ErrorHandler (lb_after d) w outreq
    | Response code payload =>
      match ModifyResponse (lb_after d) outreq with
      | (Ok _, lb') => (Ok tt, lb', http.Write (http.WriteHeader w code) payload)
      | (failed, lb') => (failed, lb', w)
      end
    end
  | failed => (failed, lb_after d, w)
  end.

End WithLibrary.

End Proxy.

(** ** main.go *)

Module main.

Definition backends : list Backend :=
  [ {| URL := "http://localhost:8001"; Healthy := true;
       failureCount := 0; ActiveConnections := 0 |};
    {| URL := "http://localhost:8002"; Healthy := true;
       failureCount := 0; ActiveConnections := 0 |} ].

Definition lb : LoadBalancer.t :=
  {| LoadBalancer.backends := backends;
     LoadBalancer.index := 0;
     LoadBalancer.algorithm := None |}.

(** The two registrations on the [ServeMux]. The pattern
    ["POST /admin/change-algorithm"] matches that method and exactly that
    path; the pattern ["/"] matches every other request. The mux hands the
    request to the handler as it came, path included. *)
Inductive handler : Type := ReverseProxyHandler | LoadBalancerHandler.

Definition mux (r : http.Request) : handler :=
  if bool_decide (http.Method r = "POST")
     && bool_decide (url.Path (http.URL r) = "/admin/change-algorithm")
  then LoadBalancerHandler
  else ReverseProxyHandler.

Definition serve (url_Parse : string -> option url.t) (h : Proxy.Handoff)
    (rt : Proxy.RoundTrip) (now : Z) (lb : LoadBalancer.t)
    (w : http.ResponseWriter) (r : http.Request)
    : result unit * LoadBalancer.t * http.ResponseWriter :=
  match mux r with
  | LoadBalancerHandler =>
    let '(lb', w') := LoadBalancer.ServeHTTP lb w r in (Ok tt, lb', w')
  | ReverseProxyHandler => Proxy.ServeHTTP url_Parse h rt now lb w r
  end.

End main.

(** ** Vocabulary of the statements *)

(** On a ring of [n] positions, the number of single steps that lead from
    position [i] back to position [start], at least one. *)
Definition steps_to (n start i : Z) : Z :=
  if bool_decide (i < start) then start - i else n - i + start.

Definition in_bounds (backends : list Backend) (i : Z) : Prop :=
  0 <= i < Z.of_nat (length backends).

(** A call that returned normally, indexed the slice only inside its bounds
    and left the cursor inside the bounds. *)
Definition safe_run (backends : list Backend) (r : RoundRobin.run) : Prop :=
  (exists res, RoundRobin.ret r = Ok res)
  /\ Forall (in_bounds backends) (RoundRobin.accessed r)
  /\ in_bounds backends (RoundRobin.index (RoundRobin.state r)).

(** Position [p] holds a healthy backend whose connection count is minimal
    among the healthy backends of the slice and strictly below that of
    every healthy backend at an earlier position. *)
Definition least_connected (backends : list Backend) (p : nat) : Prop :=
  exists b : Backend,
    backends !! p = Some b
    /\ IsHealthy b = true
    /\ forall (j : nat) (b' : Backend),
         backends !! j = Some b' -> IsHealthy b' = true ->
         ActiveConnections b <= ActiveConnections b'
         /\ ((j < p)%nat -> ActiveConnections b < ActiveConnections b').

(** The state of the scan of [least-conn.go] after the prefix [scanned]. *)
Definition scan_inv (scanned : list Backend) (best : option nat) (min : Z) : Prop :=
  (forall (j : nat) (b' : Backend),
      scanned !! j = Some b' -> IsHealthy b' = true -> min <= ActiveConnections b')
  /\ match best with
     | None => min = Int64.MaxInt64
     | Some p =>
       exists b : Backend,
         scanned !! p = Some b /\ IsHealthy b = true /\ ActiveConnections b = min
         /\ forall (j : nat) (b' : Backend),
              scanned !! j = Some b' -> IsHealthy b' = true -> (j < p)%nat ->
              min < ActiveConnections b'
     end.

(** A request that has not been through [Director] carries none of the
    proxy's context keys. *)
Definition untagged (r : http.Request) : Prop :=
  context.Value (http.ctx r) loadBalancerErrKey = None
  /\ context.Value (http.ctx r) backendKey = None.

(** How far position [j] lies past position [start] on a ring of [n]
    positions: 0 for [start] itself, [n - 1] for the position before it. *)
Definition ring_offset (n start j : Z) : Z :=
  if bool_decide (start <= j) then j - start else n - start + j.

(** Between two states of the backend slice: the same URLs at the same
    positions, and no backend healthy that was not healthy before. *)
Definition same_targets (before after : list Backend) : Prop :=
  Forall2 (fun b b' => URL b' = URL b /\ (Healthy b' = true -> Healthy b = true))
    before after.

(** The health fields of the slice, position by position. *)
Definition health_fields (backends : list Backend) : list (bool * Z) :=
  map (fun b => (Healthy b, failureCount b)) backends.

(** The strategy is not least-connection. *)
Definition not_least_connection (lb : LoadBalancer.t) : Prop :=
  LoadBalancer.algorithm lb <> Some AlgoLeastConnection.

(** One inbound request with what its environment decides: the time it
    arrives and what the forwarded call comes to if it is forwarded. *)
Record arrival : Type := mkArrival {
  arrives_at : Z;
  round_trip : Proxy.RoundTrip;
  request : http.Request
}.

(** What happens to the balancer of [main] over time: a request is served,
    or a health-check goroutine completes one round of its loop. *)
Inductive event : Type :=
| Served (a : arrival)
| Probed (p : nat) (res : LoadBalancer.ProbeResult).

(** One event on the server of [main]: a request is served on a response of
    its own (a panic ends only the request it happens in, the state it left
    stays), a probe round marks its backend. *)
Definition step (url_Parse : string -> option url.t) (h : Proxy.Handoff)
    (lb : LoadBalancer.t) (e : event) : LoadBalancer.t :=
  match e with
  | Served a =>
    (main.serve url_Parse h (round_trip a) (arrives_at a) lb
       http.fresh (request a)).1.2
  | Probed p res => LoadBalancer.HealthCheckRound lb p res
  end.

Definition run (url_Parse : string -> option url.t) (h : Proxy.Handoff)
    (lb : LoadBalancer.t) (events : list event) : LoadBalancer.t :=
  foldl (step url_Parse h) lb events.


(** What the two hooks do to the balancer when the request they are given
    carries backend [p]: a failed call and an answered call. *)
Inductive completion : Type := CallFailed | CallAnswered.

#[global] Instance completion_eq_dec : EqDecision completion.
Proof. solve_decision. Defined.

(** The number of failed calls among [cs]. *)
Definition failures (cs : list completion) : nat :=
  length (filter (fun c => c = CallFailed) cs).

Definition tagged (p : nat) : http.Request :=
  {| http.Method := "GET"; http.URL := url.empty;
     http.ctx := context.WithValue [] backendKey (BackendValue p) |}.

Definition complete (p : nat) (lb : LoadBalancer.t) (c : completion)
    : LoadBalancer.t :=
  match c with
  | CallFailed => (Proxy.ErrorHandler lb http.fresh (tagged p)).1.2
  | CallAnswered => (Proxy.ModifyResponse lb (tagged p)).2
  end.

(** After [k] failed calls: the counter is [k] while [k] is below 5, and
    the backend is unhealthy from the fifth on. *)
Definition counted (k : nat) (b : Backend) : Prop :=
  ((k < 5)%nat /\ failureCount b = Z.of_nat k) \/ ((5 <= k)%nat /\ Healthy b = false).


(** * Properties *)

(** ** Machine integers *)

Lemma wrap_in_range (z : Z) : Int64.in_range z -> Int64.wrap z = z.
Proof.
  unfold Int64.in_range, Int64.MinInt64, Int64.MaxInt64, Int64.wrap.
  intros Hz. rewrite Z.mod_small; lia.
Qed.

Lemma add_succ_small (x : Z) : 0 <= x < 5 -> Int64.add x 1 = x + 1.
Proof.
  intros Hx. unfold Int64.add. apply wrap_in_range.
  unfold Int64.in_range, Int64.MinInt64, Int64.MaxInt64. lia.
Qed.

(** Adding one never gives the value back, whatever the wrap-around. *)
Lemma add_one_neq (x : Z) : Int64.in_range x -> Int64.add x 1 <> x.
Proof.
  unfold Int64.add, Int64.in_range, Int64.MinInt64, Int64.MaxInt64.
  intros Hx. destruct (decide (x = 9223372036854775807)) as [->|Hne].
  - vm_compute. discriminate.
  - rewrite wrap_in_range; [lia|].
    unfold Int64.in_range, Int64.MinInt64, Int64.MaxInt64. lia.
Qed.

Lemma add_one_sub_one (x : Z) :
  Int64.in_range x -> Int64.add (Int64.add x 1) (-1) = x.
Proof.
  unfold Int64.add, Int64.in_range, Int64.MinInt64, Int64.MaxInt64.
  intros Hx. destruct (decide (x = 9223372036854775807)) as [->|Hne].
  - vm_compute. reflexivity.
  - rewrite (wrap_in_range (x + 1)).
    + replace (x + 1 + -1) with x by lia. apply wrap_in_range.
      unfold Int64.in_range, Int64.MinInt64, Int64.MaxInt64. lia.
    + unfold Int64.in_range, Int64.MinInt64, Int64.MaxInt64. lia.
Qed.

(** ** Backend *)

Lemma IncrementFailure_count (b : Backend) :
  failureCount (IncrementFailure b) = Int64.add (failureCount b) 1.
Proof. reflexivity. Qed.

Lemma IncrementFailure_below (b : Backend) :
  0 <= failureCount b < 4 -> Healthy (IncrementFailure b) = Healthy b.
Proof.
  intros Hc. unfold IncrementFailure. cbn.
  rewrite add_succ_small by lia. rewrite bool_decide_eq_false_2; [done | lia].
Qed.

Lemma IncrementFailure_reached (b : Backend) :
  5 <= Int64.add (failureCount b) 1 -> Healthy (IncrementFailure b) = false.
Proof. intros Hc. unfold IncrementFailure. cbn [Healthy]. by rewrite bool_decide_eq_true_2. Qed.

Lemma IncrementFailure_iter_count (b : Backend) (n : nat) :
  failureCount b = 0 -> (n <= 5)%nat ->
  failureCount (Nat.iter n IncrementFailure b) = Z.of_nat n.
Proof.
  intros H0. induction n as [|n IH]; intros Hn; [done|].
  rewrite Nat.iter_succ, IncrementFailure_count, IH by lia.
  rewrite add_succ_small; lia.
Qed.

Lemma IncrementFailure_iter_frame (b : Backend) (n : nat) :
  URL (Nat.iter n IncrementFailure b) = URL b
  /\ ActiveConnections (Nat.iter n IncrementFailure b) = ActiveConnections b.
Proof. induction n as [|n [IHu IHa]]; [done|]. rewrite Nat.iter_succ. by cbn. Qed.

(** C6. Starting from a healthy backend whose failure counter is 0, up to
    four calls of [IncrementFailure] leave it healthy, the fifth call makes
    it unhealthy, and a following [MarkHealthy] makes it healthy again with
    the counter back at 0 (and nothing else changed). *)
Theorem failure_threshold (b : Backend) :
  Healthy b = true ->
  failureCount b = 0 ->
  (forall n : nat, (n <= 4)%nat -> Healthy (Nat.iter n IncrementFailure b) = true)
  /\ Healthy (Nat.iter 4 IncrementFailure b) = true
  /\ Healthy (Nat.iter 5 IncrementFailure b) = false
  /\ failureCount (Nat.iter 5 IncrementFailure b) = 5
  /\ MarkHealthy (Nat.iter 5 IncrementFailure b)
     = {| URL := URL b; Healthy := true; failureCount := 0;
          ActiveConnections := ActiveConnections b |}.
Proof.
  intros Hh H0.
  assert (Hlow : forall n : nat, (n <= 4)%nat ->
            Healthy (Nat.iter n IncrementFailure b) = true).
  { induction n as [|n IH]; intros Hn; [done|].
    rewrite Nat.iter_succ, IncrementFailure_below.
    - apply IH. lia.
    - rewrite IncrementFailure_iter_count by lia. lia. }
  split; [exact Hlow|]. split; [apply Hlow; lia|].
  assert (H5 : failureCount (Nat.iter 5 IncrementFailure b) = 5).
  { by rewrite IncrementFailure_iter_count by lia. }
  split; [|split; [exact H5|]].
  - rewrite Nat.iter_succ in *. apply IncrementFailure_reached.
    rewrite <- IncrementFailure_count, H5. lia.
  - destruct (IncrementFailure_iter_frame b 5) as [Hu Ha].
    unfold MarkHealthy. by rewrite Hu, Ha.
Qed.

Lemma failure_threshold_witness :
  let b := {| URL := "http://localhost:8001"; Healthy := true;
              failureCount := 0; ActiveConnections := 7 |} in
  Healthy (Nat.iter 4 IncrementFailure b) = true
  /\ Healthy (Nat.iter 5 IncrementFailure b) = false
  /\ failureCount (MarkHealthy (Nat.iter 5 IncrementFailure b)) = 0.
Proof.
  intros b.
  destruct (failure_threshold b eq_refl eq_refl) as (_ & H4 & H5 & _ & Hm).
  split; [exact H4|]. split; [exact H5|]. rewrite Hm. reflexivity.
Defined.

Lemma apply_op_inv (b : Backend) (op : BackendOp) : threshold_inv (apply_op b op).
Proof.
  unfold threshold_inv. destruct op; cbn.
  - lia.
  - done.
  - intros Hc. by rewrite bool_decide_eq_true_2.
Qed.

(** C7. The invariant "the backend is unhealthy whenever its failure
    counter is at least 5" holds of every backend whose counter is 0, and
    every sequence of [MarkHealthy], [MarkUnHealthy] and [IncrementFailure]
    calls leads from a state that satisfies it to one that satisfies it. *)
Theorem threshold_inv_preserved :
  (forall b : Backend, failureCount b = 0 -> threshold_inv b)
  /\ (forall (ops : list BackendOp) (b : Backend),
        threshold_inv b -> threshold_inv (apply_ops b ops)).
Proof.
  split.
  - intros b H0. unfold threshold_inv. lia.
  - unfold apply_ops. induction ops as [|op ops IH]; intros b Hb; [exact Hb|].
    cbn [foldl]. apply IH, apply_op_inv.
Qed.

Lemma threshold_inv_preserved_witness :
  let b := {| URL := "http://localhost:8002"; Healthy := true;
              failureCount := 0; ActiveConnections := 0 |} in
  threshold_inv b
  /\ threshold_inv
       (apply_ops b (replicate 6 OpIncrementFailure
                     ++ [OpMarkHealthy; OpIncrementFailure; OpMarkUnHealthy])).
Proof.
  intros b. destruct threshold_inv_preserved as [Hinit Hpres].
  split.
  - apply Hinit. reflexivity.
  - apply Hpres, Hinit. reflexivity.
Defined.

(** C8. [MarkUnHealthy] sets the health flag to false in every state, so
    also when the failure counter is 0, and changes no other field. *)
Theorem MarkUnHealthy_frame (b : Backend) :
  Healthy (MarkUnHealthy b) = false
  /\ failureCount (MarkUnHealthy b) = failureCount b
  /\ URL (MarkUnHealthy b) = URL b
  /\ ActiveConnections (MarkUnHealthy b) = ActiveConnections b
  /\ MarkUnHealthy b
     = {| URL := URL b; Healthy := false; failureCount := failureCount b;
          ActiveConnections := ActiveConnections b |}.
Proof. by repeat split. Qed.

(** ** Round robin *)

Example round_robin_skip :
  let A := {| URL := "A"; Healthy := false; failureCount := 0; ActiveConnections := 0 |} in
  let B := {| URL := "B"; Healthy := true; failureCount := 0; ActiveConnections := 0 |} in
  let C := {| URL := "C"; Healthy := true; failureCount := 0; ActiveConnections := 0 |} in
  RoundRobin.NextBackend [A; B; C] RoundRobin.zero
  = {| RoundRobin.ret := Ok (Some 1%nat);
       RoundRobin.state := {| RoundRobin.index := 2 |};
       RoundRobin.accessed := [0; 1] |}.
Proof. reflexivity. Qed.

Example round_robin_single_unhealthy :
  let A := {| URL := "A"; Healthy := false; failureCount := 0; ActiveConnections := 0 |} in
  RoundRobin.NextBackend [A] RoundRobin.zero
  = {| RoundRobin.ret := Ok None;
       RoundRobin.state := {| RoundRobin.index := 0 |};
       RoundRobin.accessed := [0] |}.
Proof. reflexivity. Qed.

Lemma at_index_in_bounds {A : Type} (s : list A) (i : Z) :
  0 <= i < Z.of_nat (length s) ->
  exists x, at_index s i = Some x /\ s !! Z.to_nat i = Some x.
Proof.
  intros Hi. unfold at_index. rewrite bool_decide_eq_true_2 by lia.
  destruct (lookup_lt_is_Some_2 s (Z.to_nat i)) as [x Hx]; [lia|]. eauto.
Qed.

Lemma at_index_out_of_bounds {A : Type} (s : list A) (i : Z) :
  ~ 0 <= i < Z.of_nat (length s) -> at_index s i = None.
Proof.
  intros Hi. unfold at_index. case_bool_decide; [|done].
  apply lookup_ge_None_2. lia.
Qed.

(** Go's remainder on the operands the loop gives it. *)
Lemma next_index (n i : Z) :
  0 <= i < n ->
  (i + 1 = n /\ Z.rem (i + 1) n = 0) \/ (i + 1 < n /\ Z.rem (i + 1) n = i + 1).
Proof.
  intros Hi. destruct (decide (i + 1 = n)) as [Hn|Hn].
  - left. split; [done|]. rewrite Hn. apply Z.rem_same. lia.
  - right. split; [lia|]. apply Z.rem_small. lia.
Qed.

Lemma steps_to_pos (n start i : Z) :
  0 <= start < n -> 0 <= i < n -> 1 <= steps_to n start i <= n.
Proof. intros Hs Hi. unfold steps_to. case_bool_decide; lia. Qed.

(** The loop, started anywhere inside the slice with enough fuel to get
    back to [start]: it returns, it stays inside the bounds, a returned
    backend is healthy, and [nil] is returned exactly at [start]. *)
Lemma loop_spec (backends : list Backend) (start : Z) :
  in_bounds backends start ->
  forall (fuel : nat) (i : Z) (seen : list Z),
    in_bounds backends i ->
    steps_to (Z.of_nat (length backends)) start i <= Z.of_nat fuel ->
    exists (res : option nat) (extra : list Z),
      let r := RoundRobin.loop fuel backends start {| RoundRobin.index := i |} seen in
      RoundRobin.ret r = Ok res
      /\ RoundRobin.accessed r = seen ++ extra
      /\ Forall (in_bounds backends) extra
      /\ Z.of_nat (length extra) <= steps_to (Z.of_nat (length backends)) start i
      /\ in_bounds backends (RoundRobin.index (RoundRobin.state r))
      /\ match res with
         | Some p => exists b, backends !! p = Some b /\ IsHealthy b = true
         | None =>
           RoundRobin.index (RoundRobin.state r) = start
           /\ Z.of_nat (length extra)
              = steps_to (Z.of_nat (length backends)) start i
         end.
Proof.
  unfold in_bounds. intros Hs.
  induction fuel as [|fuel IH]; intros i seen Hi Hfuel.
  { pose proof (steps_to_pos _ _ _ Hs Hi). lia. }
  destruct (at_index_in_bounds backends i Hi) as (b & Hat & Hb).
  cbn [RoundRobin.loop]. cbv zeta. cbn [RoundRobin.index]. rewrite Hat.
  assert (Hone : 1 <= steps_to (Z.of_nat (length backends)) start i)
    by (pose proof (steps_to_pos _ _ _ Hs Hi); lia).
  set (i' := Z.rem (i + 1) (Z.of_nat (length backends))).
  assert (Hin : 0 <= i' < Z.of_nat (length backends)).
  { subst i'. destruct (next_index _ _ Hi) as [[_ ->]|[? ->]]; lia. }
  assert (Hstep : if bool_decide (start = i')
                  then steps_to (Z.of_nat (length backends)) start i = 1
                  else steps_to (Z.of_nat (length backends)) start i'
                       = steps_to (Z.of_nat (length backends)) start i - 1).
  { subst i'. unfold steps_to.
    destruct (next_index _ _ Hi) as [[? ->]|[? ->]]; repeat case_bool_decide; lia. }
  destruct (IsHealthy b) eqn:Hh.
  - exists (Some (Z.to_nat i)), [i]. cbn.
    repeat split; try done; try lia.
    + by apply Forall_singleton.
    + eauto.
  - destruct (bool_decide (start = i')) eqn:Hback.
    + exists None, [i]. cbn. rewrite Hstep.
      apply bool_decide_eq_true_1 in Hback.
      repeat split; try done; try lia.
      by apply Forall_singleton.
    + destruct (IH i' (seen ++ [i]) Hin)
        as (res & extra & Hret & Hacc & Hall & Hlen & Hidx & Hres); [lia|].
      exists res, (i :: extra). cbn zeta in *.
      rewrite Hret, Hacc, <- app_assoc. cbn [app length].
      repeat split; try done; try lia.
      * by apply Forall_cons.
      * destruct res as [p|]; [exact Hres|].
        destruct Hres as [? ?]. split; [done|]. lia.
Qed.

(** More fuel than a terminating run needs does not change it. *)
Lemma loop_fuel_mono (backends : list Backend) (start : Z) (fuel : nat) :
  forall (rr : RoundRobin.t) (seen : list Z),
    RoundRobin.ret (RoundRobin.loop fuel backends start rr seen) <> OutOfFuel ->
    forall fuel' : nat, (fuel <= fuel')%nat ->
      RoundRobin.loop fuel' backends start rr seen
      = RoundRobin.loop fuel backends start rr seen.
Proof.
  induction fuel as [|fuel IH]; intros rr seen Hret fuel' Hle; [done|].
  destruct fuel' as [|fuel']; [lia|].
  cbn [RoundRobin.loop] in *. cbv zeta in *.
  destruct (at_index backends (RoundRobin.index rr)) as [b|]; [|done].
  destruct (IsHealthy b); [done|].
  case_bool_decide; [done|]. apply IH; [done|lia].
Qed.

(** Every call returns or panics within the fuel [NextBackend] gives its
    loop, whatever the slice and the cursor: the model of the call is
    total. *)
Lemma NextBackend_terminates (backends : list Backend) (rr : RoundRobin.t) :
  RoundRobin.ret (RoundRobin.NextBackend backends rr) <> OutOfFuel.
Proof.
  unfold RoundRobin.NextBackend. destruct rr as [i].
  destruct (decide (in_bounds backends i)) as [Hi|Hi].
  - destruct (loop_spec backends i Hi (S (length backends)) i [] Hi)
      as (res & extra & Hret & _).
    + pose proof (steps_to_pos _ _ _ Hi Hi). lia.
    + cbn zeta in Hret. cbn [RoundRobin.index]. by rewrite Hret.
  - cbn [RoundRobin.loop]. cbv zeta. cbn [RoundRobin.index].
    by rewrite at_index_out_of_bounds.
Qed.

Lemma NextBackend_healthy (backends : list Backend) (i : Z) (b : Backend) :
  in_bounds backends i ->
  backends !! Z.to_nat i = Some b ->
  IsHealthy b = true ->
  RoundRobin.NextBackend backends {| RoundRobin.index := i |}
  = {| RoundRobin.ret := Ok (Some (Z.to_nat i));
       RoundRobin.state :=
         {| RoundRobin.index := Z.rem (i + 1) (Z.of_nat (length backends)) |};
       RoundRobin.accessed := [i] |}.
Proof.
  intros Hi Hb Hh. destruct (at_index_in_bounds backends i Hi) as (b' & Hat & Hb').
  assert (b' = b) as -> by congruence.
  unfold RoundRobin.NextBackend. cbn [RoundRobin.loop]. cbv zeta.
  cbn [RoundRobin.index]. by rewrite Hat, Hh.
Qed.

Lemma runs_all_healthy (backends : list Backend) :
  Forall (fun b => IsHealthy b = true) backends ->
  forall m k : nat,
    (k + m <= length backends)%nat ->
    map RoundRobin.ret
      (RoundRobin.runs (replicate m backends) {| RoundRobin.index := Z.of_nat k |})
    = map (fun p => Ok (Some p)) (seq k m).
Proof.
  intros Hall. induction m as [|m IH]; intros k Hk; [done|].
  destruct (lookup_lt_is_Some_2 backends k) as [b Hb]; [lia|].
  assert (Hi : in_bounds backends (Z.of_nat k)) by (unfold in_bounds; lia).
  cbn [replicate RoundRobin.runs seq map].
  rewrite (NextBackend_healthy backends (Z.of_nat k) b Hi).
  - cbn [RoundRobin.ret RoundRobin.state]. rewrite Nat2Z.id. f_equal.
    destruct m as [|m]; [done|].
    destruct (next_index _ _ Hi) as [[? _]|[_ ->]]; [lia|].
    replace (Z.of_nat k + 1) with (Z.of_nat (S k)) by lia.
    apply IH. lia.
  - by rewrite Nat2Z.id.
  - rewrite Forall_forall in Hall. apply Hall. by eapply list_elem_of_lookup_2.
Qed.

(** C4. On a slice of N backends that are all healthy, N consecutive calls
    of [RoundRobin.NextBackend] on a fresh strategy ([index] 0) return the
    backends at positions 0, 1, ..., N-1, in that order: every backend
    exactly once, in the order of the slice. *)
Theorem round_robin_fairness (backends : list Backend) :
  Forall (fun b => IsHealthy b = true) backends ->
  map RoundRobin.ret
    (RoundRobin.calls (length backends) backends RoundRobin.zero)
  = map (fun p => Ok (Some p)) (seq 0 (length backends)).
Proof.
  intros Hall. unfold RoundRobin.calls, RoundRobin.zero.
  apply (runs_all_healthy backends Hall (length backends) 0). lia.
Qed.

Lemma round_robin_fairness_witness :
  map RoundRobin.ret (RoundRobin.calls 2 main.backends RoundRobin.zero)
  = [Ok (Some 0%nat); Ok (Some 1%nat)].
Proof.
  apply (round_robin_fairness main.backends).
  repeat constructor.
Defined.

(** C5. On a non-empty slice whose backends are all unhealthy, a call of
    [RoundRobin.NextBackend] from any cursor position of the slice returns
    [nil] after exactly one pass over the ring: it indexes the slice as many
    times as it has entries (once for a single backend), needs no more loop
    iterations than that, and leaves the cursor where it started. *)
Theorem round_robin_exhaustion (backends : list Backend) (start : Z) :
  backends <> [] ->
  Forall (fun b => IsHealthy b = false) backends ->
  in_bounds backends start ->
  let rr := {| RoundRobin.index := start |} in
  RoundRobin.ret (RoundRobin.NextBackend backends rr) = Ok None
  /\ length (RoundRobin.accessed (RoundRobin.NextBackend backends rr))
     = length backends
  /\ RoundRobin.state (RoundRobin.NextBackend backends rr) = rr
  /\ forall fuel : nat, (length backends <= fuel)%nat ->
       RoundRobin.loop fuel backends start rr []
       = RoundRobin.NextBackend backends rr.
Proof.
  intros _ Hall Hs rr.
  assert (Hsteps : steps_to (Z.of_nat (length backends)) start start
                   = Z.of_nat (length backends)).
  { unfold steps_to. case_bool_decide; lia. }
  destruct (loop_spec backends start Hs (length backends) start [] Hs)
    as (res & extra & Hret & Hacc & _ & _ & _ & Hres); [lia|].
  cbn zeta in *. fold rr in Hret, Hacc, Hres.
  assert (Hmono : forall fuel : nat, (length backends <= fuel)%nat ->
            RoundRobin.loop fuel backends start rr []
            = RoundRobin.loop (length backends) backends start rr []).
  { intros fuel Hfuel. apply loop_fuel_mono; [|done]. by rewrite Hret. }
  assert (Hnext : RoundRobin.NextBackend backends rr
                  = RoundRobin.loop (length backends) backends start rr []).
  { unfold RoundRobin.NextBackend. apply Hmono. cbn. lia. }
  destruct res as [p|].
  { destruct Hres as (b & Hb & Hh). rewrite Forall_forall in Hall.
    rewrite (Hall b) in Hh; [done|]. by eapply list_elem_of_lookup_2. }
  destruct Hres as [Hidx Hlen]. rewrite Hnext, Hret, Hacc. cbn [app].
  repeat split.
  - lia.
  - destruct (RoundRobin.state _) as [j]. cbn in Hidx. by subst rr j.
  - intros fuel Hfuel. by rewrite Hmono.
Qed.

Lemma round_robin_exhaustion_witness :
  let down := {| URL := "http://localhost:8001"; Healthy := false;
                 failureCount := 5; ActiveConnections := 0 |} in
  RoundRobin.ret (RoundRobin.NextBackend [down] RoundRobin.zero) = Ok None
  /\ RoundRobin.ret
       (RoundRobin.NextBackend [down; down; down] {| RoundRobin.index := 2 |})
     = Ok None.
Proof.
  intros down. split.
  - apply (round_robin_exhaustion [down] 0).
    + discriminate.
    + repeat constructor.
    + unfold in_bounds. cbn. lia.
  - apply (round_robin_exhaustion [down; down; down] 2).
    + discriminate.
    + repeat constructor.
    + unfold in_bounds. cbn. lia.
Defined.

Lemma NextBackend_safe (backends : list Backend) (rr : RoundRobin.t) :
  in_bounds backends (RoundRobin.index rr) ->
  safe_run backends (RoundRobin.NextBackend backends rr).
Proof.
  destruct rr as [i]. cbn [RoundRobin.index]. intros Hi.
  destruct (loop_spec backends i Hi (S (length backends)) i [] Hi)
    as (res & extra & Hret & Hacc & Hall & _ & Hidx & _).
  { pose proof (steps_to_pos _ _ _ Hi Hi). lia. }
  cbn zeta in *. unfold safe_run, RoundRobin.NextBackend. cbn [RoundRobin.index].
  rewrite Hacc. cbn [app]. eauto.
Qed.

Lemma runs_safe (n : nat) (snapshots : list (list Backend)) :
  Forall (fun bs => length bs = n) snapshots ->
  forall rr : RoundRobin.t,
    0 <= RoundRobin.index rr < Z.of_nat n ->
    Forall2 safe_run snapshots (RoundRobin.runs snapshots rr).
Proof.
  induction 1 as [|bs later Hbs _ IH]; intros rr Hrr; cbn [RoundRobin.runs].
  { constructor. }
  assert (Hsafe : safe_run bs (RoundRobin.NextBackend bs rr)).
  { apply NextBackend_safe. unfold in_bounds. by rewrite Hbs. }
  constructor; [exact Hsafe|]. apply IH.
  destruct Hsafe as (_ & _ & Hidx). unfold in_bounds in Hidx. by rewrite Hbs in Hidx.
Qed.

(** C10. On a non-empty slice, a call of [RoundRobin.NextBackend] whose
    cursor is inside the slice returns normally, indexes the slice only at
    positions inside it and leaves the cursor inside it; hence any number of
    calls on a fresh strategy, over a slice whose length stays the same
    non-zero number while its backends' flags change, never index out of
    bounds. The slice has to be non-empty: on the empty slice every call
    stops with the run-time error of its first index expression instead of
    returning [nil]. *)
Theorem round_robin_in_bounds :
  (forall (backends : list Backend) (rr : RoundRobin.t),
      backends <> [] ->
      in_bounds backends (RoundRobin.index rr) ->
      safe_run backends (RoundRobin.NextBackend backends rr))
  /\ (forall (n : nat) (snapshots : list (list Backend)),
        (0 < n)%nat ->
        Forall (fun bs => length bs = n) snapshots ->
        Forall2 safe_run snapshots (RoundRobin.runs snapshots RoundRobin.zero))
  /\ (forall rr : RoundRobin.t,
        RoundRobin.ret (RoundRobin.NextBackend [] rr) = Panic "index out of range"
        /\ RoundRobin.ret (RoundRobin.NextBackend [] rr) <> Ok None).
Proof.
  split; [|split].
  - intros backends rr _. apply NextBackend_safe.
  - intros n snapshots Hn Hlen. apply (runs_safe n); [done|]. cbn. lia.
  - intros [i]. unfold RoundRobin.NextBackend.
    cbn [RoundRobin.loop]. cbv zeta. cbn [RoundRobin.index].
    rewrite at_index_out_of_bounds; [done|]. cbn. lia.
Qed.

Lemma round_robin_in_bounds_witness :
  let up := {| URL := "http://localhost:8001"; Healthy := true;
               failureCount := 0; ActiveConnections := 0 |} in
  let down := {| URL := "http://localhost:8002"; Healthy := false;
                 failureCount := 0; ActiveConnections := 0 |} in
  safe_run [down; up] (RoundRobin.NextBackend [down; up] {| RoundRobin.index := 1 |})
  /\ Forall2 safe_run [[up; down]; [down; down]; [down; up]]
       (RoundRobin.runs [[up; down]; [down; down]; [down; up]] RoundRobin.zero)
  /\ RoundRobin.ret (RoundRobin.NextBackend [] RoundRobin.zero)
     = Panic "index out of range".
Proof.
  intros up down. destruct round_robin_in_bounds as (Hone & Hmany & Hempty).
  split; [|split].
  - apply Hone.
    + discriminate.
    + unfold in_bounds. cbn. lia.
  - apply (Hmany 2%nat).
    + lia.
    + repeat constructor.
  - apply Hempty.
Defined.

(** ** Least connection *)

Example least_connection_minimum :
  let A := {| URL := "A"; Healthy := true; failureCount := 0; ActiveConnections := 3 |} in
  let B := {| URL := "B"; Healthy := true; failureCount := 0; ActiveConnections := 1 |} in
  let C := {| URL := "C"; Healthy := true; failureCount := 0; ActiveConnections := 1 |} in
  LeastConnection.NextBackend [A; B; C] = Some 1%nat.
Proof. reflexivity. Qed.

Example least_connection_health_filter :
  let A := {| URL := "A"; Healthy := false; failureCount := 0; ActiveConnections := 0 |} in
  let B := {| URL := "B"; Healthy := true; failureCount := 0; ActiveConnections := 5 |} in
  LeastConnection.NextBackend [A; B] = Some 1%nat.
Proof. reflexivity. Qed.

Lemma lookup_snoc_Some {A : Type} (l : list A) (x y : A) (j : nat) :
  (l ++ [x]) !! j = Some y ->
  l !! j = Some y \/ (j = length l /\ y = x).
Proof.
  intros H. apply lookup_app_Some in H as [H|[Hj H]]; [by left|right].
  destruct (j - length l)%nat as [|k] eqn:Hk; cbn in H; [|done].
  split; [lia|congruence].
Qed.

Lemma scan_inv_step (scanned : list Backend) (backend : Backend)
    (best : option nat) (min : Z) :
  scan_inv scanned best min ->
  if negb (IsHealthy backend) then scan_inv (scanned ++ [backend]) best min
  else if bool_decide (ActiveConnections backend < min)
       then scan_inv (scanned ++ [backend]) (Some (length scanned))
              (ActiveConnections backend)
       else scan_inv (scanned ++ [backend]) best min.
Proof.
  intros [Hmin Hbest]. destruct (IsHealthy backend) eqn:Hh; cbn [negb].
  - case_bool_decide as Hlt.
    + split.
      * intros j b' Hj Hb'. apply lookup_snoc_Some in Hj as [Hj|[_ ->]]; [|lia].
        specialize (Hmin j b' Hj Hb'). lia.
      * exists backend. split; [|split; [done|split; [done|]]].
        { rewrite lookup_app_r by lia. by rewrite Nat.sub_diag. }
        intros j b' Hj Hb' Hlt'. apply lookup_snoc_Some in Hj as [Hj|[-> _]]; [|lia].
        specialize (Hmin j b' Hj Hb'). lia.
    + split.
      * intros j b' Hj Hb'. apply lookup_snoc_Some in Hj as [Hj|[_ ->]]; [|lia].
        exact (Hmin j b' Hj Hb').
      * destruct best as [p|]; [|done].
        destruct Hbest as (b & Hb & Hbh & Hbc & Hearly).
        exists b. split; [by apply lookup_app_l_Some|]. split; [done|]. split; [done|].
        intros j b' Hj Hb' Hlt'. apply lookup_snoc_Some in Hj as [Hj|[-> _]].
        { by eapply Hearly. }
        apply lookup_lt_Some in Hb. lia.
  - split.
    + intros j b' Hj Hb'. apply lookup_snoc_Some in Hj as [Hj|[_ ->]]; [|congruence].
      exact (Hmin j b' Hj Hb').
    + destruct best as [p|]; [|done].
      destruct Hbest as (b & Hb & Hbh & Hbc & Hearly).
      exists b. split; [by apply lookup_app_l_Some|]. split; [done|]. split; [done|].
      intros j b' Hj Hb' Hlt'. apply lookup_snoc_Some in Hj as [Hj|[-> _]].
      { by eapply Hearly. }
      apply lookup_lt_Some in Hb. lia.
Qed.

Lemma scan_spec (rest : list Backend) :
  forall (scanned : list Backend) (best : option nat) (min : Z),
    scan_inv scanned best min ->
    exists min' : Z,
      scan_inv (scanned ++ rest)
        (LeastConnection.scan (length scanned) rest best min) min'.
Proof.
  induction rest as [|backend rest IH]; intros scanned best min Hinv.
  { exists min. by rewrite app_nil_r. }
  pose proof (scan_inv_step scanned backend best min Hinv) as Hstep.
  cbn [LeastConnection.scan]. cbv zeta.
  replace (scanned ++ backend :: rest) with ((scanned ++ [backend]) ++ rest)
    by (by rewrite <- app_assoc).
  replace (S (length scanned)) with (length (scanned ++ [backend]))
    by (rewrite length_app; cbn; lia).
  destruct (negb (IsHealthy backend)); [by apply IH|].
  destruct (bool_decide (ActiveConnections backend < min)); by apply IH.
Qed.

(** What [LeastConnection.NextBackend] computes on every slice: a returned
    position is the earliest least-connected healthy one, and [nil] is
    returned exactly when no healthy backend has a count below the initial
    value of [min]. *)
Lemma least_connection_result (backends : list Backend) :
  match LeastConnection.NextBackend backends with
  | Some p => least_connected backends p
  | None =>
    forall (j : nat) (b : Backend),
      backends !! j = Some b -> IsHealthy b = true ->
      Int64.MaxInt64 <= ActiveConnections b
  end.
Proof.
  destruct (scan_spec backends [] None Int64.MaxInt64) as [min' [Hmin Hbest]].
  { split; [|done]. intros j b' Hj. by destruct j. }
  cbn [app length] in *. unfold LeastConnection.NextBackend.
  destruct (LeastConnection.scan 0 backends None Int64.MaxInt64) as [p|].
  - destruct Hbest as (b & Hb & Hbh & Hbc & Hearly).
    exists b. split; [done|]. split; [done|].
    intros j b' Hj Hb'. rewrite Hbc. split; [by eapply Hmin|]. by eapply Hearly.
  - subst min'. exact Hmin.
Qed.

(** With every healthy count below [math.MaxInt64], the scan meets the
    description: earliest least-connected healthy backend, and [nil] exactly
    when no backend is healthy. *)
Lemma least_connection_below_sentinel (backends : list Backend) :
  Forall (fun b => IsHealthy b = true -> ActiveConnections b < Int64.MaxInt64)
    backends ->
  (forall p : nat,
      LeastConnection.NextBackend backends = Some p -> least_connected backends p)
  /\ (LeastConnection.NextBackend backends = None
      <-> Forall (fun b => IsHealthy b = false) backends).
Proof.
  intros Hbelow. pose proof (least_connection_result backends) as Hres.
  rewrite Forall_forall in Hbelow. split; [|split].
  - intros p Hp. by rewrite Hp in Hres.
  - intros Hnone. rewrite Hnone in Hres. apply Forall_forall. intros b Hb.
    destruct (IsHealthy b) eqn:Hh; [|done].
    apply list_elem_of_lookup_1 in Hb as [j Hj].
    specialize (Hres j b Hj Hh).
    assert (b ∈ backends) as Hin by by eapply list_elem_of_lookup_2.
    specialize (Hbelow b Hin Hh). lia.
  - intros Hall. destruct (LeastConnection.NextBackend backends) as [p|]; [|done].
    destruct Hres as (b & Hb & Hh & _). rewrite Forall_forall in Hall.
    rewrite (Hall b) in Hh; [done|]. by eapply list_elem_of_lookup_2.
Qed.

(** C3, at the input where the code leaves it. A single healthy backend
    whose connection count is [math.MaxInt64] is the earliest healthy
    backend of minimal count, and the slice does contain a healthy backend,
    yet [LeastConnection.NextBackend] returns [nil]: the count is not below
    the value [min] starts from. *)
Theorem least_connection_sentinel :
  let b := {| URL := "http://localhost:8001"; Healthy := true;
              failureCount := 0; ActiveConnections := Int64.MaxInt64 |} in
  IsHealthy b = true
  /\ least_connected [b] 0
  /\ ~ Forall (fun b => IsHealthy b = false) [b]
  /\ LeastConnection.NextBackend [b] = None.
Proof.
  intros b. split; [done|]. split; [|split; [|done]].
  - exists b. split; [done|]. split; [done|].
    intros j b' Hj _. destruct j as [|j]; [|done].
    cbn in Hj. assert (b' = b) as -> by congruence. split; [lia|lia].
  - intros Hall. by apply Forall_cons_1 in Hall as [Hh _].
Qed.

(** ** The balancer *)

Lemma NextBackend_backends (lb : LoadBalancer.t) :
  LoadBalancer.backends (LoadBalancer.NextBackend lb).2 = LoadBalancer.backends lb
  /\ LoadBalancer.index (LoadBalancer.NextBackend lb).2 = LoadBalancer.index lb.
Proof.
  unfold LoadBalancer.NextBackend.
  by destruct (algorithm_NextBackend _ _).
Qed.

(** C9. After [SetAlgorithm lb algo] the next [NextBackend] is answered by
    [algo] on the balancer's backends, whatever strategy and cursor the
    balancer held before; for the strategies as they are created,
    [&RoundRobin{}] and [&LeastConnection{}], that is round robin from
    cursor 0 and the least-connection scan. A balancer whose strategy was
    never set answers its first call as round robin from cursor 0, and
    after any call the strategy is set. *)
Theorem SetAlgorithm_takes_effect (lb : LoadBalancer.t) :
  (forall algo : BalancerAlgorithm,
      LoadBalancer.NextBackend (LoadBalancer.SetAlgorithm lb algo)
      = ((algorithm_NextBackend algo (LoadBalancer.backends lb)).1,
         {| LoadBalancer.backends := LoadBalancer.backends lb;
            LoadBalancer.index := LoadBalancer.index lb;
            LoadBalancer.algorithm :=
              Some (algorithm_NextBackend algo (LoadBalancer.backends lb)).2 |}))
  /\ (forall (algo : BalancerAlgorithm) (old : option BalancerAlgorithm),
        LoadBalancer.NextBackend
          (LoadBalancer.SetAlgorithm
             {| LoadBalancer.backends := LoadBalancer.backends lb;
                LoadBalancer.index := LoadBalancer.index lb;
                LoadBalancer.algorithm := old |} algo)
        = LoadBalancer.NextBackend (LoadBalancer.SetAlgorithm lb algo))
  /\ (LoadBalancer.NextBackend
        (LoadBalancer.SetAlgorithm lb (AlgoRoundRobin RoundRobin.zero))).1
     = RoundRobin.ret
         (RoundRobin.NextBackend (LoadBalancer.backends lb) {| RoundRobin.index := 0 |})
  /\ (LoadBalancer.NextBackend (LoadBalancer.SetAlgorithm lb AlgoLeastConnection)).1
     = Ok (LeastConnection.NextBackend (LoadBalancer.backends lb))
  /\ (LoadBalancer.algorithm lb = None ->
      LoadBalancer.NextBackend lb
      = LoadBalancer.NextBackend
          (LoadBalancer.SetAlgorithm lb (AlgoRoundRobin RoundRobin.zero)))
  /\ LoadBalancer.algorithm (LoadBalancer.NextBackend lb).2 <> None.
Proof.
  repeat split.
  - intros algo. unfold LoadBalancer.NextBackend, LoadBalancer.SetAlgorithm.
    cbn [LoadBalancer.algorithm LoadBalancer.backends LoadBalancer.index].
    by destruct (algorithm_NextBackend _ _).
  - intros Hnone. unfold LoadBalancer.NextBackend, LoadBalancer.SetAlgorithm.
    by rewrite Hnone.
  - unfold LoadBalancer.NextBackend.
    by destruct (algorithm_NextBackend _ _).
Qed.

Lemma SetAlgorithm_takes_effect_witness :
  LoadBalancer.NextBackend main.lb
  = LoadBalancer.NextBackend
      (LoadBalancer.SetAlgorithm main.lb (AlgoRoundRobin RoundRobin.zero)).
Proof.
  destruct (SetAlgorithm_takes_effect main.lb) as (_ & _ & _ & _ & Hdefault & _).
  apply Hdefault. reflexivity.
Defined.

(** ** The admin handler *)

Lemma WriteHeader_first (w : http.ResponseWriter) (code : Z) :
  http.status w = None ->
  http.WriteHeader w code
  = {| http.status := Some code; http.body := http.body w;
       http.superfluous := http.superfluous w |}.
Proof. intros Hw. unfold http.WriteHeader. by rewrite Hw. Qed.

(** The handler by itself, on a response that is still unwritten: the two
    recognised names swap the strategy and answer 200 (the 404 that follows
    comes too late to change the status), any other name answers 400 and any
    other path or method 404, both without touching the balancer. *)
Lemma ServeHTTP_handler (lb : LoadBalancer.t) (w : http.ResponseWriter)
    (r : http.Request) :
  http.status w = None ->
  let name := url.Get (url.Query (http.URL r)) "algorithm" in
  let swapped algo :=
    (LoadBalancer.SetAlgorithm lb algo,
     {| http.status := Some http.StatusOK; http.body := http.body w;
        http.superfluous := S (http.superfluous w) |}) in
  LoadBalancer.ServeHTTP lb w r
  = if bool_decide (url.Path (http.URL r) = "/change-algorithm"
                    /\ http.Method r = "POST")
    then if bool_decide (name = "round-robin")
         then swapped (AlgoRoundRobin RoundRobin.zero)
         else if bool_decide (name = "least-connection")
              then swapped AlgoLeastConnection
              else (lb, http.WriteHeader w http.StatusBadRequest)
    else (lb, http.WriteHeader w http.StatusNotFound).
Proof.
  intros Hw name swapped. unfold LoadBalancer.ServeHTTP. fold name.
  unfold http.MethodPost.
  destruct (bool_decide (url.Path (http.URL r) = "/change-algorithm")) eqn:Hp;
    destruct (bool_decide (http.Method r = "POST")) eqn:Hm; cbn [andb].
  - apply bool_decide_eq_true_1 in Hp, Hm.
    rewrite (bool_decide_eq_true_2 (_ /\ _)) by done.
    subst swapped. cbv beta.
    repeat case_bool_decide; try done; by rewrite (WriteHeader_first w).
  - apply bool_decide_eq_false_1 in Hm. rewrite (bool_decide_eq_false_2 (_ /\ _)); [done|tauto].
  - apply bool_decide_eq_false_1 in Hp. rewrite (bool_decide_eq_false_2 (_ /\ _)); [done|tauto].
  - apply bool_decide_eq_false_1 in Hp. rewrite (bool_decide_eq_false_2 (_ /\ _)); [done|tauto].
Qed.

(** No request that the mux of [main] hands to the balancer's handler has
    the path the handler compares with. *)
Lemma mux_handler_not_found (lb : LoadBalancer.t) (w : http.ResponseWriter)
    (r : http.Request) :
  main.mux r = main.LoadBalancerHandler ->
  LoadBalancer.ServeHTTP lb w r = (lb, http.WriteHeader w http.StatusNotFound).
Proof.
  unfold main.mux. intros Hmux.
  destruct (bool_decide (http.Method r = "POST")); [|done].
  destruct (bool_decide (url.Path (http.URL r) = "/admin/change-algorithm")) eqn:Hp;
    [|done].
  apply bool_decide_eq_true_1 in Hp. unfold LoadBalancer.ServeHTTP.
  rewrite Hp. done.
Qed.

Lemma mux_change_algorithm_proxied (r : http.Request) :
  url.Path (http.URL r) = "/change-algorithm" ->
  main.mux r = main.ReverseProxyHandler.
Proof.
  intros Hp. unfold main.mux. rewrite Hp.
  by destruct (bool_decide (http.Method r = "POST")).
Qed.

(** C2, at the inputs where the code leaves it. Through the server that
    [main] builds, [POST /admin/change-algorithm?algorithm=least-connection]
    reaches the balancer's handler, is answered 404 and leaves the strategy
    as it was, and [POST /change-algorithm?algorithm=least-connection] does
    not reach the handler at all but goes to the reverse proxy; the handler
    would answer 200 and swap the strategy only for the path
    [/change-algorithm], which the mux never gives it. *)
Theorem change_algorithm_unreachable (url_Parse : string -> option url.t)
    (h : Proxy.Handoff) (rt : Proxy.RoundTrip) (now : Z) :
  let post path :=
    {| http.Method := "POST";
       http.URL := {| url.Scheme := ""; url.Host := ""; url.Path := path;
                      url.Query := [("algorithm", "least-connection")] |};
       http.ctx := [] |} in
  main.mux (post "/admin/change-algorithm") = main.LoadBalancerHandler
  /\ main.serve url_Parse h rt now main.lb http.fresh (post "/admin/change-algorithm")
     = (Ok tt, main.lb,
        {| http.status := Some http.StatusNotFound; http.body := "";
           http.superfluous := 0 |})
  /\ main.mux (post "/change-algorithm") = main.ReverseProxyHandler
  /\ LoadBalancer.ServeHTTP main.lb http.fresh (post "/change-algorithm")
     = (LoadBalancer.SetAlgorithm main.lb AlgoLeastConnection,
        {| http.status := Some http.StatusOK; http.body := "";
           http.superfluous := 1 |}).
Proof. intros post. repeat split. Qed.

(** ** The reverse proxy *)

Lemma AddActiveConnections_URL (delta : Z) (b : Backend) :
  URL (AddActiveConnections delta b) = URL b.
Proof. reflexivity. Qed.

(** [Director] on a request for which a backend is selected: the count of
    that backend is one higher, the request object of the caller keeps the
    context it came with, and only the closure's own [r] carries the
    pointer to the backend. *)
Lemma Director_selected (url_Parse : string -> option url.t)
    (lb lb1 : LoadBalancer.t) (now : Z) (r : http.Request)
    (p : nat) (b : Backend) (target : url.t) :
  LoadBalancer.NextBackend lb = (Ok (Some p), lb1) ->
  LoadBalancer.backends lb !! p = Some b ->
  url_Parse (URL b) = Some target ->
  let d := Proxy.Director url_Parse lb now r in
  Proxy.outcome d = Ok tt
  /\ LoadBalancer.backends (Proxy.lb_after d)
     = alter (AddActiveConnections 1) p (LoadBalancer.backends lb)
  /\ http.ctx (Proxy.caller_request d) = http.ctx r
  /\ http.ctx (Proxy.local_request d)
     = (backendKey, BackendValue p) :: (startTimeKey, TimeValue now) :: http.ctx r.
Proof.
  intros Hnext Hb Hparse.
  pose proof (NextBackend_backends lb) as [Hbs _]. rewrite Hnext in Hbs. cbn in Hbs.
  unfold Proxy.Director. rewrite Hnext. cbn [LoadBalancer.with_backends LoadBalancer.backends].
  rewrite Hbs, list_lookup_alter_eq, Hb. cbn [fmap option_fmap option_map].
  rewrite AddActiveConnections_URL, Hparse. by cbn.
Qed.

(** C1, where the code leaves it. Take any request for which a backend is
    selected and whose forwarded call fails. When the request is done, the
    connection count of that backend is its count before the dispatch plus
    one: [ErrorHandler] answers 502 and never decrements. This holds for
    either request object that the hooks may be looking at, so it does not
    depend on the rebinding at the end of [Director]. *)
Theorem failed_call_keeps_connection (url_Parse : string -> option url.t)
    (h : Proxy.Handoff) (now : Z) (lb lb1 : LoadBalancer.t)
    (w : http.ResponseWriter) (r : http.Request)
    (p : nat) (b : Backend) (target : url.t) :
  untagged r ->
  LoadBalancer.NextBackend lb = (Ok (Some p), lb1) ->
  LoadBalancer.backends lb !! p = Some b ->
  url_Parse (URL b) = Some target ->
  exists (lb' : LoadBalancer.t) (w' : http.ResponseWriter) (b' : Backend),
    Proxy.ServeHTTP url_Parse h Proxy.TransportError now lb w r = (Ok tt, lb', w')
    /\ LoadBalancer.backends lb' !! p = Some b'
    /\ ActiveConnections b' = Int64.add (ActiveConnections b) 1
    /\ (Int64.in_range (ActiveConnections b) ->
        ActiveConnections b' <> ActiveConnections b).
Proof.
  intros [Herr Htag] Hnext Hb Hparse.
  destruct (Director_selected url_Parse lb lb1 now r p b target Hnext Hb Hparse)
    as (Hout & Hbs & Hcaller & Hlocal).
  cbv zeta in *. unfold Proxy.ServeHTTP. rewrite Hout.
  assert (Hfail : forall rq : http.Request,
            Proxy.transport rq Proxy.TransportError = Proxy.TransportError).
  { intros rq. unfold Proxy.transport. by case_bool_decide. }
  rewrite Hfail. unfold Proxy.ErrorHandler.
  destruct h; cbn [Proxy.hooks_request].
  - rewrite Hcaller, Herr, Htag.
    eexists _, _, _. split; [done|]. rewrite Hbs, list_lookup_alter_eq, Hb.
    split; [done|]. split; [done|]. cbn. apply add_one_neq.
  - rewrite Hlocal. cbn [context.Value].
    rewrite !bool_decide_eq_false_2 by done. rewrite Herr.
    rewrite bool_decide_eq_true_2 by done.
    eexists _, _, _. split; [done|].
    cbn [LoadBalancer.with_backends LoadBalancer.backends].
    rewrite Hbs, !list_lookup_alter_eq, Hb.
    split; [done|]. split; [done|]. cbn. apply add_one_neq.
Qed.

Lemma failed_call_keeps_connection_witness :
  let parse (s : string) : option url.t :=
    Some {| url.Scheme := "http"; url.Host := "localhost:8001";
            url.Path := ""; url.Query := [] |} in
  let get := {| http.Method := "GET";
                http.URL := {| url.Scheme := ""; url.Host := ""; url.Path := "/";
                               url.Query := [] |};
                http.ctx := [] |} in
  exists (lb' : LoadBalancer.t) (w' : http.ResponseWriter) (b' : Backend),
    Proxy.ServeHTTP parse Proxy.CallerObject Proxy.TransportError 0
      main.lb http.fresh get = (Ok tt, lb', w')
    /\ LoadBalancer.backends lb' !! 0%nat = Some b'
    /\ ActiveConnections b' = 1.
Proof.
  intros parse get.
  destruct (failed_call_keeps_connection parse Proxy.CallerObject 0 main.lb
              (LoadBalancer.NextBackend main.lb).2 http.fresh get 0%nat
              {| URL := "http://localhost:8001"; Healthy := true;
                 failureCount := 0; ActiveConnections := 0 |}
              {| url.Scheme := "http"; url.Host := "localhost:8001";
                 url.Path := ""; url.Query := [] |})
    as (lb' & w' & b' & Hserve & Hb' & Hcount & _).
  - split; reflexivity.
  - reflexivity.
  - reflexivity.
  - reflexivity.
  - exists lb', w', b'. split; [exact Hserve|]. split; [exact Hb'|].
    rewrite Hcount. reflexivity.
Defined.

(** The same request when the backend did answer, with any status code.
    The request object that Go hands to [ModifyResponse] is the caller's,
    whose context has no backend in it, so nothing is decremented either. *)
Lemma answered_call_caller_object (url_Parse : string -> option url.t)
    (now code : Z) (payload : string) (lb lb1 : LoadBalancer.t)
    (w : http.ResponseWriter) (r : http.Request)
    (p : nat) (b : Backend) (target : url.t) :
  untagged r ->
  LoadBalancer.NextBackend lb = (Ok (Some p), lb1) ->
  LoadBalancer.backends lb !! p = Some b ->
  url_Parse (URL b) = Some target ->
  url.Scheme target <> "" ->
  exists (lb' : LoadBalancer.t) (w' : http.ResponseWriter),
    Proxy.ServeHTTP url_Parse Proxy.CallerObject (Proxy.Response code payload)
      now lb w r = (Ok tt, lb', w')
    /\ LoadBalancer.backends lb' !! p = Some (AddActiveConnections 1 b).
Proof.
  intros [Herr Htag] Hnext Hb Hparse Hscheme.
  destruct (Director_selected url_Parse lb lb1 now r p b target Hnext Hb Hparse)
    as (Hout & Hbs & Hcaller & Hlocal).
  cbv zeta in *. unfold Proxy.ServeHTTP. rewrite Hout.
  assert (Hurl : url.Scheme (http.URL (Proxy.caller_request
                   (Proxy.Director url_Parse lb now r))) = url.Scheme target).
  { pose proof (NextBackend_backends lb) as [Hbs1 _].
    rewrite Hnext in Hbs1. cbn in Hbs1.
    unfold Proxy.Director. rewrite Hnext.
    cbn [LoadBalancer.with_backends LoadBalancer.backends].
    rewrite Hbs1, list_lookup_alter_eq, Hb. cbn [fmap option_fmap option_map].
    by rewrite AddActiveConnections_URL, Hparse. }
  unfold Proxy.transport. rewrite Hurl, bool_decide_eq_false_2 by done.
  unfold Proxy.ModifyResponse. cbn [Proxy.hooks_request]. rewrite Hcaller, Htag.
  eexists _, _. split; [done|]. by rewrite Hbs, list_lookup_alter_eq, Hb.
Qed.

(** Had the rebound request reached [ModifyResponse], an answered call
    would give the count back. *)
Lemma answered_call_director_local (url_Parse : string -> option url.t)
    (now code : Z) (payload : string) (lb lb1 : LoadBalancer.t)
    (w : http.ResponseWriter) (r : http.Request)
    (p : nat) (b : Backend) (target : url.t) :
  untagged r ->
  LoadBalancer.NextBackend lb = (Ok (Some p), lb1) ->
  LoadBalancer.backends lb !! p = Some b ->
  url_Parse (URL b) = Some target ->
  url.Scheme target <> "" ->
  Int64.in_range (ActiveConnections b) ->
  exists (lb' : LoadBalancer.t) (w' : http.ResponseWriter),
    Proxy.ServeHTTP url_Parse Proxy.DirectorLocal (Proxy.Response code payload)
      now lb w r = (Ok tt, lb', w')
    /\ LoadBalancer.backends lb' !! p = Some b.
Proof.
  intros [Herr Htag] Hnext Hb Hparse Hscheme Hrange.
  destruct (Director_selected url_Parse lb lb1 now r p b target Hnext Hb Hparse)
    as (Hout & Hbs & Hcaller & Hlocal).
  cbv zeta in *. unfold Proxy.ServeHTTP. rewrite Hout.
  assert (Hurl : url.Scheme (http.URL (Proxy.caller_request
                   (Proxy.Director url_Parse lb now r))) = url.Scheme target).
  { pose proof (NextBackend_backends lb) as [Hbs1 _].
    rewrite Hnext in Hbs1. cbn in Hbs1.
    unfold Proxy.Director. rewrite Hnext.
    cbn [LoadBalancer.with_backends LoadBalancer.backends].
    rewrite Hbs1, list_lookup_alter_eq, Hb. cbn [fmap option_fmap option_map].
    by rewrite AddActiveConnections_URL, Hparse. }
  unfold Proxy.transport. rewrite Hurl, bool_decide_eq_false_2 by done.
  unfold Proxy.ModifyResponse. cbn [Proxy.hooks_request]. rewrite Hlocal.
  cbn [context.Value]. rewrite bool_decide_eq_true_2 by done.
  eexists _, _. split; [done|].
  cbn [LoadBalancer.with_backends LoadBalancer.backends].
  rewrite Hbs, !list_lookup_alter_eq, Hb. cbn. f_equal.
  destruct b as [u hl fc ac]. unfold AddActiveConnections. cbn in *.
  by rewrite add_one_sub_one.
Qed.

(** * Further properties of the code *)

(** ** Round robin: which backend is returned *)

Lemma steps_to_inj (n start i j : Z) :
  0 <= start < n -> 0 <= i < n -> 0 <= j < n ->
  steps_to n start j = steps_to n start i -> j = i.
Proof. unfold steps_to. intros Hs Hi Hj. repeat case_bool_decide; lia. Qed.

Lemma steps_to_offset (n start j : Z) :
  0 <= start < n -> 0 <= j < n ->
  steps_to n start j = n - ring_offset n start j.
Proof. unfold steps_to, ring_offset. intros Hs Hj. repeat case_bool_decide; lia. Qed.

(** The loop from position [i] on: a returned backend is healthy, every
    position passed on the way to it is unhealthy, the cursor ends just
    past it; and [nil] means every position from [i] on to the one before
    [start] is unhealthy. *)
Lemma loop_ring (backends : list Backend) (start : Z) :
  in_bounds backends start ->
  forall (fuel : nat) (i : Z) (seen : list Z),
    in_bounds backends i ->
    steps_to (Z.of_nat (length backends)) start i <= Z.of_nat fuel ->
    let n := Z.of_nat (length backends) in
    let r := RoundRobin.loop fuel backends start {| RoundRobin.index := i |} seen in
    (forall p : nat,
        RoundRobin.ret r = Ok (Some p) ->
        in_bounds backends (Z.of_nat p)
        /\ steps_to n start (Z.of_nat p) <= steps_to n start i
        /\ (exists b, backends !! p = Some b /\ IsHealthy b = true)
        /\ RoundRobin.index (RoundRobin.state r) = Z.rem (Z.of_nat p + 1) n
        /\ forall (j : Z) (b' : Backend),
             in_bounds backends j ->
             steps_to n start (Z.of_nat p) < steps_to n start j <= steps_to n start i ->
             backends !! Z.to_nat j = Some b' -> IsHealthy b' = false)
    /\ (RoundRobin.ret r = Ok None ->
        forall (j : Z) (b' : Backend),
          in_bounds backends j ->
          steps_to n start j <= steps_to n start i ->
          backends !! Z.to_nat j = Some b' -> IsHealthy b' = false).
Proof.
  unfold in_bounds. cbv zeta. intros Hs.
  set (n := Z.of_nat (length backends)) in *.
  induction fuel as [|fuel IH]; intros i seen Hi Hfuel.
  { pose proof (steps_to_pos _ _ _ Hs Hi). lia. }
  destruct (at_index_in_bounds backends i Hi) as (b & Hat & Hb).
  cbn [RoundRobin.loop]. cbv zeta. cbn [RoundRobin.index]. rewrite Hat.
  fold n.
  set (i' := Z.rem (i + 1) n).
  assert (Hin : 0 <= i' < n).
  { subst i'. destruct (next_index _ _ Hi) as [[_ ->]|[? ->]]; lia. }
  assert (Hstep : if bool_decide (start = i')
                  then steps_to n start i = 1
                  else steps_to n start i' = steps_to n start i - 1).
  { subst i'. unfold steps_to.
    destruct (next_index _ _ Hi) as [[? ->]|[? ->]]; repeat case_bool_decide; lia. }
  assert (Hself : forall (j : Z) (b' : Backend),
            0 <= j < n -> steps_to n start j = steps_to n start i ->
            backends !! Z.to_nat j = Some b' -> b' = b).
  { intros j b' Hj Heq Hb'. apply (steps_to_inj n start i j) in Heq; [|done..].
    subst j. congruence. }
  destruct (IsHealthy b) eqn:Hh.
  - cbn [RoundRobin.ret RoundRobin.state RoundRobin.index]. split; [|done].
    intros p [= <-]. rewrite Z2Nat.id by lia.
    split; [done|]. split; [lia|]. split; [eauto|]. split; [done|].
    intros j b' Hj Hbetween. lia.
  - destruct (bool_decide (start = i')) eqn:Hback.
    + cbn [RoundRobin.ret]. split; [done|].
      intros _ j b' Hj Hle Hb'.
      pose proof (steps_to_pos _ _ _ Hs Hj).
      rewrite (Hself j b' Hj) by (done || lia). done.
    + destruct (IH i' (seen ++ [i]) Hin) as [IHsome IHnone]; [lia|].
      split.
      * intros p Hp. destruct (IHsome p Hp) as (Hpb & Hple & Hph & Hidx & Hskip).
        split; [done|]. split; [lia|]. split; [done|]. split; [done|].
        intros j b' Hj Hbetween Hb'.
        destruct (decide (steps_to n start j = steps_to n start i)) as [Heq|Hne].
        { by rewrite (Hself j b' Hj Heq Hb'). }
        apply (Hskip j b' Hj); [lia|done].
      * intros Hnone j b' Hj Hle Hb'.
        destruct (decide (steps_to n start j = steps_to n start i)) as [Heq|Hne].
        { by rewrite (Hself j b' Hj Heq Hb'). }
        apply (IHnone Hnone j b' Hj); [lia|done].
Qed.

Lemma NextBackend_ring (backends : list Backend) (rr : RoundRobin.t) :
  in_bounds backends (RoundRobin.index rr) ->
  let n := Z.of_nat (length backends) in
  let r := RoundRobin.NextBackend backends rr in
  (forall p : nat,
      RoundRobin.ret r = Ok (Some p) ->
      in_bounds backends (Z.of_nat p)
      /\ (exists b, backends !! p = Some b /\ IsHealthy b = true)
      /\ RoundRobin.index (RoundRobin.state r) = Z.rem (Z.of_nat p + 1) n
      /\ forall (j : Z) (b' : Backend),
           in_bounds backends j ->
           ring_offset n (RoundRobin.index rr) j
             < ring_offset n (RoundRobin.index rr) (Z.of_nat p) ->
           backends !! Z.to_nat j = Some b' -> IsHealthy b' = false)
  /\ (RoundRobin.ret r = Ok None -> Forall (fun b => IsHealthy b = false) backends).
Proof.
  destruct rr as [i]. cbn [RoundRobin.index]. cbv zeta. intros Hi.
  pose proof (steps_to_pos _ _ _ Hi Hi) as Hpos.
  destruct (loop_ring backends i Hi (S (length backends)) i [] Hi) as [Hsome Hnone];
    [lia|].
  unfold RoundRobin.NextBackend. cbn [RoundRobin.index].
  set (n := Z.of_nat (length backends)) in *. split.
  - intros p Hp. destruct (Hsome p Hp) as (Hpb & _ & Hph & Hidx & Hskip).
    split; [done|]. split; [done|]. split; [done|].
    intros j b' Hj Hoff Hb'. apply (Hskip j b' Hj); [|done].
    unfold in_bounds in *. fold n in Hi, Hj, Hpb.
    rewrite !steps_to_offset by done.
    unfold ring_offset in *. repeat case_bool_decide; lia.
  - intros Hr. apply Forall_forall. intros b' Hin.
    apply list_elem_of_lookup_1 in Hin as [k Hk].
    pose proof (lookup_lt_Some _ _ _ Hk) as Hlt.
    assert (Hkb : in_bounds backends (Z.of_nat k)) by (unfold in_bounds; lia).
    apply (Hnone Hr (Z.of_nat k) b' Hkb).
    + unfold in_bounds in *. fold n in Hi, Hkb.
      pose proof (steps_to_pos n i (Z.of_nat k) Hi Hkb).
      pose proof (steps_to_pos n i i Hi Hi).
      unfold steps_to in *. repeat case_bool_decide; lia.
    + by rewrite Nat2Z.id.
Qed.

(** X1. With the cursor inside the slice, a backend returned by
    [RoundRobin.NextBackend] is healthy and is the first healthy one in
    ring order from the cursor: every position that comes before it on the
    ring, counted from the cursor, holds an unhealthy backend. The cursor
    is left one position past the returned backend, modulo the length. *)
Theorem round_robin_first_healthy (backends : list Backend)
    (rr : RoundRobin.t) (p : nat) :
  in_bounds backends (RoundRobin.index rr) ->
  RoundRobin.ret (RoundRobin.NextBackend backends rr) = Ok (Some p) ->
  let n := Z.of_nat (length backends) in
  (exists b, backends !! p = Some b /\ IsHealthy b = true)
  /\ (forall (j : nat) (b' : Backend),
        backends !! j = Some b' ->
        ring_offset n (RoundRobin.index rr) (Z.of_nat j)
          < ring_offset n (RoundRobin.index rr) (Z.of_nat p) ->
        IsHealthy b' = false)
  /\ RoundRobin.index (RoundRobin.state (RoundRobin.NextBackend backends rr))
     = Z.rem (Z.of_nat p + 1) n.
Proof.
  intros Hi Hp n.
  destruct (NextBackend_ring backends rr Hi) as [Hsome _].
  destruct (Hsome p Hp) as (_ & Hph & Hidx & Hskip).
  split; [done|]. split; [|done].
  intros j b' Hb' Hoff. apply (Hskip (Z.of_nat j) b').
  - pose proof (lookup_lt_Some _ _ _ Hb'). unfold in_bounds. lia.
  - done.
  - by rewrite Nat2Z.id.
Qed.

Lemma round_robin_first_healthy_witness :
  let down := {| URL := "http://localhost:8001"; Healthy := false;
                 failureCount := 5; ActiveConnections := 0 |} in
  let up := {| URL := "http://localhost:8002"; Healthy := true;
               failureCount := 0; ActiveConnections := 0 |} in
  RoundRobin.index
    (RoundRobin.state
       (RoundRobin.NextBackend [up; up; down] {| RoundRobin.index := 2 |}))
  = 1.
Proof.
  intros down up.
  destruct (round_robin_first_healthy [up; up; down] {| RoundRobin.index := 2 |} 0%nat)
    as (_ & _ & Hidx).
  - unfold in_bounds. cbn. lia.
  - reflexivity.
  - exact Hidx.
Defined.

(** X2. With the cursor inside the slice, [RoundRobin.NextBackend] returns
    [nil] exactly when every backend of the slice is unhealthy; it never
    gives up while some backend is healthy. *)
Theorem round_robin_nil_iff (backends : list Backend) (rr : RoundRobin.t) :
  in_bounds backends (RoundRobin.index rr) ->
  RoundRobin.ret (RoundRobin.NextBackend backends rr) = Ok None
  <-> Forall (fun b => IsHealthy b = false) backends.
Proof.
  intros Hi. split.
  - by apply NextBackend_ring.
  - intros Hall. destruct (NextBackend_safe backends rr Hi) as ([res Hres] & _ & _).
    destruct res as [p|]; [|done].
    destruct (NextBackend_ring backends rr Hi) as [Hsome _].
    destruct (Hsome p Hres) as (_ & (b & Hb & Hh) & _).
    rewrite Forall_forall in Hall. rewrite (Hall b) in Hh; [done|].
    by eapply list_elem_of_lookup_2.
Qed.

Lemma round_robin_nil_iff_witness :
  let down := {| URL := "http://localhost:8001"; Healthy := false;
                 failureCount := 5; ActiveConnections := 0 |} in
  let up := {| URL := "http://localhost:8002"; Healthy := true;
               failureCount := 0; ActiveConnections := 0 |} in
  ~ Forall (fun b => IsHealthy b = false) [down; up]
  /\ RoundRobin.ret (RoundRobin.NextBackend [down; down] {| RoundRobin.index := 1 |})
     = Ok None.
Proof.
  intros down up. split.
  - intros Hall.
    assert (Hi : in_bounds [down; up] 0) by (unfold in_bounds; cbn; lia).
    apply (round_robin_nil_iff [down; up] RoundRobin.zero Hi) in Hall.
    discriminate Hall.
  - apply (round_robin_nil_iff [down; down] {| RoundRobin.index := 1 |}).
    + unfold in_bounds. cbn. lia.
    + repeat constructor.
Defined.

Lemma next_index_nat (n k : nat) :
  (k < n)%nat -> Z.rem (Z.of_nat k + 1) (Z.of_nat n) = Z.of_nat ((k + 1) mod n).
Proof.
  intros Hk. destruct (next_index (Z.of_nat n) (Z.of_nat k)) as [[Hn ->]|[Hn ->]]; [lia| |].
  - replace (k + 1)%nat with n by lia. rewrite Nat.Div0.mod_same. done.
  - rewrite Nat.mod_small by lia. lia.
Qed.

Lemma runs_cycle (backends : list Backend) :
  Forall (fun b => IsHealthy b = true) backends ->
  forall m k : nat,
    (k < length backends)%nat ->
    map RoundRobin.ret
      (RoundRobin.runs (replicate m backends) {| RoundRobin.index := Z.of_nat k |})
    = map (fun j => Ok (Some ((k + j) mod length backends)%nat)) (seq 0 m).
Proof.
  intros Hall. induction m as [|m IH]; intros k Hk; [done|].
  destruct (lookup_lt_is_Some_2 backends k) as [b Hb]; [lia|].
  assert (Hi : in_bounds backends (Z.of_nat k)) by (unfold in_bounds; lia).
  cbn [replicate RoundRobin.runs seq map].
  rewrite (NextBackend_healthy backends (Z.of_nat k) b Hi).
  - cbn [RoundRobin.ret RoundRobin.state]. rewrite Nat2Z.id.
    rewrite Nat.add_0_r, Nat.mod_small by lia. f_equal.
    rewrite next_index_nat by done. rewrite IH by (apply Nat.mod_upper_bound; lia).
    rewrite <- seq_shift, map_map. apply map_ext. intros j.
    rewrite Nat.Div0.add_mod_idemp_l. do 3 f_equal. lia.
  - by rewrite Nat2Z.id.
  - rewrite Forall_forall in Hall. apply Hall. by eapply list_elem_of_lookup_2.
Qed.

(** X3. On a non-empty slice of healthy backends, any number of consecutive
    calls on a fresh [RoundRobin] keeps cycling through the slice: call
    number [j] (from 0) returns the backend at position [j mod N], also
    after the first pass over the N backends. *)
Theorem round_robin_cycle (backends : list Backend) (m : nat) :
  backends <> [] ->
  Forall (fun b => IsHealthy b = true) backends ->
  map RoundRobin.ret (RoundRobin.calls m backends RoundRobin.zero)
  = map (fun j => Ok (Some (j mod length backends)%nat)) (seq 0 m).
Proof.
  intros Hne Hall. unfold RoundRobin.calls, RoundRobin.zero.
  apply (runs_cycle backends Hall m 0).
  destruct backends; [done|]. cbn. lia.
Qed.

Lemma round_robin_cycle_witness :
  map RoundRobin.ret (RoundRobin.calls 5 main.backends RoundRobin.zero)
  = [Ok (Some 0%nat); Ok (Some 1%nat); Ok (Some 0%nat); Ok (Some 1%nat);
     Ok (Some 0%nat)].
Proof.
  apply (round_robin_cycle main.backends 5).
  - discriminate.
  - repeat constructor.
Defined.

(** ** The balancer: selection across calls *)

Lemma NextBackends_round_robin (m : nat) :
  forall (lb : LoadBalancer.t) (rr : RoundRobin.t),
    LoadBalancer.algorithm lb = Some (AlgoRoundRobin rr) ->
    (LoadBalancer.NextBackends m lb).1
    = map RoundRobin.ret
        (RoundRobin.runs (replicate m (LoadBalancer.backends lb)) rr).
Proof.
  induction m as [|m IH]; intros lb rr Halgo; [done|].
  cbn [LoadBalancer.NextBackends replicate RoundRobin.runs map].
  unfold LoadBalancer.NextBackend. rewrite Halgo. cbn [algorithm_NextBackend].
  specialize (IH {| LoadBalancer.backends := LoadBalancer.backends lb;
                    LoadBalancer.index := LoadBalancer.index lb;
                    LoadBalancer.algorithm :=
                      Some (AlgoRoundRobin
                              (RoundRobin.state
                                 (RoundRobin.NextBackend (LoadBalancer.backends lb) rr))) |}
                 _ eq_refl).
  cbn [LoadBalancer.backends] in IH.
  destruct (LoadBalancer.NextBackends m _) as [rest lb'']. cbn [fst] in *.
  by rewrite IH.
Qed.

Lemma NextBackends_default (m : nat) (lb : LoadBalancer.t) :
  LoadBalancer.algorithm lb = None ->
  (LoadBalancer.NextBackends m lb).1
  = (LoadBalancer.NextBackends m
       (LoadBalancer.SetAlgorithm lb (AlgoRoundRobin RoundRobin.zero))).1.
Proof.
  intros Hnone. destruct m as [|m]; [done|].
  cbn [LoadBalancer.NextBackends]. unfold LoadBalancer.NextBackend.
  by rewrite Hnone.
Qed.

(** X4. The balancer keeps the cursor of its round-robin strategy between
    calls, also when that strategy is the default it creates on first use:
    on a balancer whose strategy was never set and whose backends are all
    healthy, call number [j] of [NextBackend] returns position [j mod N]. *)
Theorem balancer_default_cycles (lb : LoadBalancer.t) (m : nat) :
  LoadBalancer.algorithm lb = None ->
  LoadBalancer.backends lb <> [] ->
  Forall (fun b => IsHealthy b = true) (LoadBalancer.backends lb) ->
  (LoadBalancer.NextBackends m lb).1
  = map (fun j => Ok (Some (j mod length (LoadBalancer.backends lb))%nat)) (seq 0 m).
Proof.
  intros Hnone Hne Hall. rewrite NextBackends_default by done.
  rewrite (NextBackends_round_robin m _ RoundRobin.zero) by done.
  cbn [LoadBalancer.SetAlgorithm LoadBalancer.backends].
  apply (runs_cycle _ Hall m 0).
  destruct (LoadBalancer.backends lb); [done|]. cbn. lia.
Qed.

Lemma balancer_default_cycles_witness :
  (LoadBalancer.NextBackends 3 main.lb).1
  = [Ok (Some 0%nat); Ok (Some 1%nat); Ok (Some 0%nat)].
Proof.
  apply (balancer_default_cycles main.lb 3).
  - reflexivity.
  - discriminate.
  - repeat constructor.
Defined.

Lemma algorithm_NextBackend_kind (algo : BalancerAlgorithm) (backends : list Backend) :
  (algorithm_NextBackend algo backends).2 = AlgoLeastConnection
  <-> algo = AlgoLeastConnection.
Proof. by destruct algo. Qed.

Lemma NextBackend_not_least_connection (lb : LoadBalancer.t) :
  not_least_connection lb -> not_least_connection (LoadBalancer.NextBackend lb).2.
Proof.
  unfold not_least_connection, LoadBalancer.NextBackend. intros Hlb.
  destruct (LoadBalancer.algorithm lb) as [[rr|]|]; cbn; congruence.
Qed.

(** X5. Edge of the empty backend list, through the balancer: with round
    robin, also as the default of a balancer whose strategy was never set,
    [NextBackend] panics on the index expression; with least connection it
    returns [nil]. Either way the list and the kind of strategy stay. *)
Theorem balancer_empty_list (lb : LoadBalancer.t) :
  LoadBalancer.backends lb = [] ->
  (LoadBalancer.NextBackend lb).1
  = match LoadBalancer.algorithm lb with
    | Some AlgoLeastConnection => Ok None
    | _ => Panic "index out of range"
    end.
Proof.
  intros Hempty. unfold LoadBalancer.NextBackend. rewrite Hempty.
  destruct (LoadBalancer.algorithm lb) as [[[i]|]|]; cbn [algorithm_NextBackend fst].
  - unfold RoundRobin.NextBackend. cbn [RoundRobin.loop]. cbv zeta.
    cbn [RoundRobin.index]. rewrite at_index_out_of_bounds; [done|]. cbn. lia.
  - done.
  - done.
Qed.

Lemma balancer_empty_list_witness :
  (LoadBalancer.NextBackend
     {| LoadBalancer.backends := []; LoadBalancer.index := 0;
        LoadBalancer.algorithm := None |}).1
  = Panic "index out of range".
Proof.
  apply (balancer_empty_list
           {| LoadBalancer.backends := []; LoadBalancer.index := 0;
              LoadBalancer.algorithm := None |}).
  reflexivity.
Defined.

(** ** Least connection: the exact result *)

Lemma scan_no_candidate (rest : list Backend) :
  forall (pos : nat) (best : option nat) (min : Z),
    min <= Int64.MaxInt64 ->
    (forall (j : nat) (b : Backend),
        rest !! j = Some b -> IsHealthy b = true ->
        Int64.MaxInt64 <= ActiveConnections b) ->
    LeastConnection.scan pos rest best min = best.
Proof.
  induction rest as [|backend rest IH]; intros pos best min Hmin Hall; [done|].
  cbn [LeastConnection.scan]. cbv zeta.
  assert (Hrest : forall (j : nat) (b : Backend),
            rest !! j = Some b -> IsHealthy b = true ->
            Int64.MaxInt64 <= ActiveConnections b).
  { intros j b Hj. apply (Hall (S j) b Hj). }
  destruct (IsHealthy backend) eqn:Hh; cbn [negb]; [|by apply IH].
  pose proof (Hall 0%nat backend eq_refl Hh).
  rewrite bool_decide_eq_false_2 by lia. by apply IH.
Qed.

Lemma least_connected_unique (backends : list Backend) (p q : nat) :
  least_connected backends p -> least_connected backends q -> p = q.
Proof.
  intros (bp & Hbp & Hhp & Hp) (bq & Hbq & Hhq & Hq).
  destruct (Hp q bq Hbq Hhq) as [Hle1 Hlt1].
  destruct (Hq p bp Hbp Hhp) as [Hle2 Hlt2].
  destruct (Nat.lt_trichotomy p q) as [Hpq|[Heq|Hqp]]; [|done|].
  - specialize (Hlt2 Hpq). lia.
  - specialize (Hlt1 Hqp). lia.
Qed.

(** X6. What [LeastConnection.NextBackend] returns on every slice. It
    returns position [p] exactly when [p] holds the earliest healthy backend
    of minimal connection count and that count is below [math.MaxInt64];
    and it returns [nil] exactly when no healthy backend has a count below
    [math.MaxInt64] (in particular when none is healthy, or the slice is
    empty). *)
Theorem least_connection_exact (backends : list Backend) :
  (forall p : nat,
      LeastConnection.NextBackend backends = Some p
      <-> least_connected backends p
          /\ exists b : Backend,
               backends !! p = Some b /\ ActiveConnections b < Int64.MaxInt64)
  /\ (LeastConnection.NextBackend backends = None
      <-> forall (j : nat) (b : Backend),
            backends !! j = Some b -> IsHealthy b = true ->
            Int64.MaxInt64 <= ActiveConnections b).
Proof.
  pose proof (least_connection_result backends) as Hres.
  assert (Hnone : (forall (j : nat) (b : Backend),
                      backends !! j = Some b -> IsHealthy b = true ->
                      Int64.MaxInt64 <= ActiveConnections b) ->
                  LeastConnection.NextBackend backends = None).
  { intros Hall. unfold LeastConnection.NextBackend.
    by apply scan_no_candidate. }
  split.
  - intros p. split.
    + intros Hp. rewrite Hp in Hres. split; [done|].
      destruct Hres as (b & Hb & Hh & Hmin). exists b. split; [done|].
      destruct (decide (ActiveConnections b < Int64.MaxInt64)) as [|Hge]; [done|].
      rewrite Hnone in Hp; [done|].
      intros j b' Hj Hb'. destruct (Hmin j b' Hj Hb') as [? _]. lia.
    + intros [Hp (b & Hb & Hlt)].
      destruct (LeastConnection.NextBackend backends) as [q|].
      * f_equal. by apply (least_connected_unique backends).
      * destruct Hp as (b' & Hb' & Hh & _).
        assert (b' = b) as -> by congruence.
        specialize (Hres p b Hb Hh). lia.
  - split; [|exact Hnone].
    intros Hn. by rewrite Hn in Hres.
Qed.

(** ** Backend: how the health flag can change *)

Lemma IncrementFailure_keeps_unhealthy (b : Backend) :
  Healthy b = false -> Healthy (IncrementFailure b) = false.
Proof. intros Hb. unfold IncrementFailure. cbn [Healthy]. by case_bool_decide. Qed.

(** X7. Five failures are enough for good: from a failure counter of 0,
    after any number of [IncrementFailure] calls that is at least 5 the
    backend is unhealthy, however long the run is (also past the point
    where the 64-bit counter wraps around). *)
Theorem failures_keep_unhealthy (b : Backend) (n : nat) :
  failureCount b = 0 ->
  (5 <= n)%nat ->
  Healthy (Nat.iter n IncrementFailure b) = false.
Proof.
  intros H0 Hn. replace n with ((n - 5) + 5)%nat by lia.
  rewrite Nat.iter_add. induction (n - 5)%nat as [|k IH].
  - rewrite Nat.iter_succ. apply IncrementFailure_reached.
    rewrite IncrementFailure_iter_count by (done || lia). done.
  - rewrite Nat.iter_succ. by apply IncrementFailure_keeps_unhealthy.
Qed.

Lemma failures_keep_unhealthy_witness :
  Healthy
    (Nat.iter 9 IncrementFailure
       {| URL := "http://localhost:8001"; Healthy := true;
          failureCount := 0; ActiveConnections := 2 |})
  = false.
Proof. apply failures_keep_unhealthy; [reflexivity | lia]. Defined.

Lemma apply_op_frame (b : Backend) (op : BackendOp) :
  URL (apply_op b op) = URL b
  /\ ActiveConnections (apply_op b op) = ActiveConnections b.
Proof. by destruct op. Qed.

(** X8. Only [MarkHealthy] brings a backend back: through any sequence of
    [MarkUnHealthy] and [IncrementFailure] calls an unhealthy backend stays
    unhealthy, and no sequence of the three operations changes the URL or
    the connection count. *)
Theorem only_MarkHealthy_recovers (ops : list BackendOp) :
  forall b : Backend,
    (~ elem_of OpMarkHealthy ops -> Healthy b = false ->
     Healthy (apply_ops b ops) = false)
    /\ URL (apply_ops b ops) = URL b
    /\ ActiveConnections (apply_ops b ops) = ActiveConnections b.
Proof.
  unfold apply_ops. induction ops as [|op ops IH]; intros b; [done|].
  cbn [foldl]. destruct (IH (apply_op b op)) as (IHh & IHu & IHa).
  destruct (apply_op_frame b op) as [Hu Ha].
  split; [|split; congruence].
  intros Hnot Hb. apply IHh.
  - intros Hin. apply Hnot. by right.
  - destruct op; cbn [apply_op].
    + exfalso. apply Hnot. by left.
    + done.
    + by apply IncrementFailure_keeps_unhealthy.
Qed.

Lemma only_MarkHealthy_recovers_witness :
  Healthy
    (apply_ops
       {| URL := "http://localhost:8001"; Healthy := false;
          failureCount := 0; ActiveConnections := 0 |}
       [OpIncrementFailure; OpMarkUnHealthy; OpIncrementFailure])
  = false.
Proof.
  apply (only_MarkHealthy_recovers
           [OpIncrementFailure; OpMarkUnHealthy; OpIncrementFailure]).
  - intros Hin. repeat (apply elem_of_cons in Hin as [Hin|Hin]; [discriminate|]).
    by apply elem_of_nil in Hin.
  - reflexivity.
Defined.

(** ** Health checks *)

Lemma probed_inv (res : LoadBalancer.ProbeResult) (b : Backend) :
  threshold_inv (LoadBalancer.probed res b).
Proof.
  destruct res as [|code]; cbn [LoadBalancer.probed].
  - apply (apply_op_inv b OpMarkUnHealthy).
  - destruct (negb _).
    + apply (apply_op_inv b OpMarkUnHealthy).
    + apply (apply_op_inv b OpMarkHealthy).
Qed.

Lemma probed_Healthy (res : LoadBalancer.ProbeResult) (b : Backend) :
  Healthy (LoadBalancer.probed res b)
  = bool_decide (res = LoadBalancer.ProbeStatus http.StatusOK).
Proof.
  destruct res as [|code]; cbn [LoadBalancer.probed]; [done|].
  case_bool_decide as Hc; cbn [negb].
  - subst code. by rewrite bool_decide_eq_true_2.
  - rewrite bool_decide_eq_false_2; [done|]. intros [= ?]. done.
Qed.

(** X9. One round of a health check decides the health of its backend by
    the probe alone, whatever the backend's state before: afterwards the
    backend is healthy exactly if the probe got a response with status 200
    (in which case the failure counter is 0 again); on an error or any other
    status it is unhealthy and the counter is what it was. The round leaves
    the URL and the connection count of the backend, every other backend,
    the cursor field and the strategy as they were. *)
Theorem HealthCheckRound_effect (lb : LoadBalancer.t) (p : nat)
    (res : LoadBalancer.ProbeResult) (b : Backend) :
  LoadBalancer.backends lb !! p = Some b ->
  let lb' := LoadBalancer.HealthCheckRound lb p res in
  let ok := bool_decide (res = LoadBalancer.ProbeStatus http.StatusOK) in
  LoadBalancer.backends lb' !! p
  = Some {| URL := URL b; Healthy := ok;
            failureCount := if ok then 0 else failureCount b;
            ActiveConnections := ActiveConnections b |}
  /\ (forall j : nat, j <> p ->
        LoadBalancer.backends lb' !! j = LoadBalancer.backends lb !! j)
  /\ length (LoadBalancer.backends lb') = length (LoadBalancer.backends lb)
  /\ LoadBalancer.algorithm lb' = LoadBalancer.algorithm lb
  /\ LoadBalancer.index lb' = LoadBalancer.index lb.
Proof.
  intros Hb lb' ok. subst lb'. unfold LoadBalancer.HealthCheckRound.
  cbn [LoadBalancer.with_backends LoadBalancer.backends LoadBalancer.algorithm
       LoadBalancer.index].
  split; [|split; [|split; [|done]]].
  - rewrite list_lookup_alter_eq, Hb. cbn [fmap option_fmap option_map]. f_equal.
    subst ok. destruct res as [|code]; cbn [LoadBalancer.probed].
    + by rewrite bool_decide_eq_false_2.
    + case_bool_decide as Hc; cbn [negb].
      * subst code. by rewrite bool_decide_eq_true_2.
      * rewrite bool_decide_eq_false_2; [done|]. intros [= ?]. done.
  - intros j Hj. by rewrite list_lookup_alter_ne.
  - by rewrite length_alter.
Qed.

Lemma HealthCheckRound_effect_witness :
  LoadBalancer.backends
    (LoadBalancer.HealthCheckRound main.lb 1 (LoadBalancer.ProbeStatus 503))
  !! 1%nat
  = Some {| URL := "http://localhost:8002"; Healthy := false;
            failureCount := 0; ActiveConnections := 0 |}.
Proof.
  destruct (HealthCheckRound_effect main.lb 1 (LoadBalancer.ProbeStatus 503)
              {| URL := "http://localhost:8002"; Healthy := true;
                 failureCount := 0; ActiveConnections := 0 |} eq_refl)
    as (Hp & _).
  exact Hp.
Defined.

(** X10. A failed probe takes its backend out of the selection of both
    strategies at once, and a good probe puts it back: after a round whose
    probe did not get status 200, neither [RoundRobin.NextBackend] (from
    any cursor inside the slice) nor [LeastConnection.NextBackend] returns
    that backend; after a round whose probe got status 200, round robin
    with its cursor on that backend returns it, whatever number of failures
    the backend had collected. *)
Theorem probe_decides_selection (lb : LoadBalancer.t) (p : nat) (b : Backend) :
  LoadBalancer.backends lb !! p = Some b ->
  (forall (res : LoadBalancer.ProbeResult) (rr : RoundRobin.t),
      res <> LoadBalancer.ProbeStatus http.StatusOK ->
      let bs := LoadBalancer.backends (LoadBalancer.HealthCheckRound lb p res) in
      in_bounds bs (RoundRobin.index rr) ->
      RoundRobin.ret (RoundRobin.NextBackend bs rr) <> Ok (Some p)
      /\ LeastConnection.NextBackend bs <> Some p)
  /\ (let bs := LoadBalancer.backends
                  (LoadBalancer.HealthCheckRound lb p
                     (LoadBalancer.ProbeStatus http.StatusOK)) in
      RoundRobin.ret (RoundRobin.NextBackend bs {| RoundRobin.index := Z.of_nat p |})
      = Ok (Some p)).
Proof.
  intros Hb. split.
  - intros res rr Hres bs Hrr.
    destruct (HealthCheckRound_effect lb p res b Hb) as (Hp & _).
    cbv zeta in Hp. fold bs in Hp.
    rewrite bool_decide_eq_false_2 in Hp by done. split.
    + intros Hret. destruct (NextBackend_ring bs rr Hrr) as [Hsome _].
      destruct (Hsome p Hret) as (_ & (b' & Hb' & Hh) & _).
      rewrite Hp in Hb'. by injection Hb' as <-.
    + intros Hlc. pose proof (least_connection_result bs) as Hr.
      rewrite Hlc in Hr. destruct Hr as (b' & Hb' & Hh & _).
      rewrite Hp in Hb'. by injection Hb' as <-.
  - intros bs.
    destruct (HealthCheckRound_effect lb p (LoadBalancer.ProbeStatus http.StatusOK) b Hb)
      as (Hp & _ & Hlen & _).
    cbv zeta in Hp, Hlen. fold bs in Hp, Hlen.
    rewrite bool_decide_eq_true_2 in Hp by done.
    pose proof (lookup_lt_Some _ _ _ Hb) as Hlt.
    rewrite (NextBackend_healthy bs (Z.of_nat p)
               {| URL := URL b; Healthy := true; failureCount := 0;
                  ActiveConnections := ActiveConnections b |}).
    + cbn. by rewrite Nat2Z.id.
    + unfold in_bounds. lia.
    + rewrite Nat2Z.id. exact Hp.
    + done.
Qed.

Lemma probe_decides_selection_witness :
  RoundRobin.ret
    (RoundRobin.NextBackend
       (LoadBalancer.backends
          (LoadBalancer.HealthCheckRound main.lb 0 LoadBalancer.ProbeError))
       RoundRobin.zero)
  <> Ok (Some 0%nat).
Proof.
  destruct (probe_decides_selection main.lb 0
              {| URL := "http://localhost:8001"; Healthy := true;
                 failureCount := 0; ActiveConnections := 0 |} eq_refl)
    as [Hfailed _].
  apply (Hfailed LoadBalancer.ProbeError RoundRobin.zero).
  - discriminate.
  - unfold in_bounds. cbn. lia.
Defined.

(** ** The reverse proxy: what a request can change *)

Lemma Director_caller_ctx (url_Parse : string -> option url.t)
    (lb : LoadBalancer.t) (now : Z) (r : http.Request) :
  http.ctx (Proxy.caller_request (Proxy.Director url_Parse lb now r)) = http.ctx r.
Proof.
  unfold Proxy.Director.
  destruct (LoadBalancer.NextBackend lb) as [[[p|]|msg|] lb1]; try done.
  destruct (_ !! p) as [backend|]; [|done].
  by destruct (url_Parse (URL backend)).
Qed.

Lemma Director_algorithm (url_Parse : string -> option url.t)
    (lb : LoadBalancer.t) (now : Z) (r : http.Request) :
  LoadBalancer.algorithm (Proxy.lb_after (Proxy.Director url_Parse lb now r))
  = LoadBalancer.algorithm (LoadBalancer.NextBackend lb).2.
Proof.
  unfold Proxy.Director.
  destruct (LoadBalancer.NextBackend lb) as [[[p|]|msg|] lb1]; try done.
  destruct (_ !! p) as [backend|]; [|done].
  by destruct (url_Parse (URL backend)).
Qed.

Lemma ErrorHandler_algorithm (lb : LoadBalancer.t) (w : http.ResponseWriter)
    (rq : http.Request) :
  LoadBalancer.algorithm (Proxy.ErrorHandler lb w rq).1.2 = LoadBalancer.algorithm lb.
Proof.
  unfold Proxy.ErrorHandler.
  destruct (context.Value _ loadBalancerErrKey); [done|].
  by destruct (context.Value _ backendKey) as [[| |]|].
Qed.

Lemma ModifyResponse_algorithm (lb : LoadBalancer.t) (rq : http.Request) :
  LoadBalancer.algorithm (Proxy.ModifyResponse lb rq).2 = LoadBalancer.algorithm lb.
Proof.
  unfold Proxy.ModifyResponse.
  by destruct (context.Value _ backendKey) as [[| |]|].
Qed.

Lemma ServeHTTP_algorithm (url_Parse : string -> option url.t)
    (h : Proxy.Handoff) (rt : Proxy.RoundTrip) (now : Z)
    (lb : LoadBalancer.t) (w : http.ResponseWriter) (r : http.Request) :
  LoadBalancer.algorithm (Proxy.ServeHTTP url_Parse h rt now lb w r).1.2
  = LoadBalancer.algorithm (LoadBalancer.NextBackend lb).2.
Proof.
  rewrite <- (Director_algorithm url_Parse lb now r). unfold Proxy.ServeHTTP.
  destruct (Proxy.outcome _); [|done..].
  destruct (Proxy.transport _ rt) as [|code payload].
  - apply ErrorHandler_algorithm.
  - pose proof (ModifyResponse_algorithm
                  (Proxy.lb_after (Proxy.Director url_Parse lb now r))
                  (Proxy.hooks_request h (Proxy.Director url_Parse lb now r))) as Hm.
    by destruct (Proxy.ModifyResponse _ _) as [[| |] lb'].
Qed.

Section Stepwise.

(** A relation between a backend before and after, kept by a change of the
    connection count. *)
Variable P : Backend -> Backend -> Prop.
Hypothesis P_count : forall (x y : Backend) (d : Z),
  P x y -> P x (AddActiveConnections d y).

Lemma Director_stepwise (url_Parse : string -> option url.t)
    (before : list Backend) (lb : LoadBalancer.t) (now : Z) (r : http.Request) :
  Forall2 P before (LoadBalancer.backends lb) ->
  Forall2 P before
    (LoadBalancer.backends (Proxy.lb_after (Proxy.Director url_Parse lb now r))).
Proof.
  intros Hbefore. pose proof (NextBackend_backends lb) as [Hbs _].
  unfold Proxy.Director.
  destruct (LoadBalancer.NextBackend lb) as [[[p|]|msg|] lb1];
    cbn [snd] in Hbs; try (cbn [Proxy.lb_after]; by rewrite Hbs).
  assert (Hlb2 : Forall2 P before
            (alter (AddActiveConnections 1) p (LoadBalancer.backends lb1))).
  { rewrite Hbs. apply Forall2_alter_r; [done|]. intros x y _ _. apply P_count. }
  cbn [LoadBalancer.with_backends LoadBalancer.backends].
  destruct (_ !! p) as [backend|]; [|done].
  by destruct (url_Parse (URL backend)).
Qed.

Lemma ModifyResponse_stepwise (before : list Backend) (lb : LoadBalancer.t)
    (rq : http.Request) :
  Forall2 P before (LoadBalancer.backends lb) ->
  Forall2 P before (LoadBalancer.backends (Proxy.ModifyResponse lb rq).2).
Proof.
  intros Hbefore. unfold Proxy.ModifyResponse.
  destruct (context.Value _ backendKey) as [[| |p]|]; try done.
  cbn. apply Forall2_alter_r; [done|]. intros x y _ _. apply P_count.
Qed.

Lemma ErrorHandler_stepwise (before : list Backend) (lb : LoadBalancer.t)
    (w : http.ResponseWriter) (rq : http.Request) :
  Forall2 P before (LoadBalancer.backends lb) ->
  context.Value (http.ctx rq) backendKey = None
  \/ (forall x y : Backend, P x y -> P x (IncrementFailure y)) ->
  Forall2 P before (LoadBalancer.backends (Proxy.ErrorHandler lb w rq).1.2).
Proof.
  intros Hbefore Hfail. unfold Proxy.ErrorHandler.
  destruct (context.Value _ loadBalancerErrKey); [done|].
  destruct (context.Value _ backendKey) as [[| |p]|]; try done.
  destruct Hfail as [|Hfail]; [done|].
  cbn. apply Forall2_alter_r; [done|]. intros x y _ _. apply Hfail.
Qed.

Lemma ServeHTTP_stepwise (url_Parse : string -> option url.t)
    (h : Proxy.Handoff) (rt : Proxy.RoundTrip) (now : Z)
    (lb : LoadBalancer.t) (w : http.ResponseWriter) (r : http.Request)
    (before : list Backend) :
  Forall2 P before (LoadBalancer.backends lb) ->
  (h = Proxy.CallerObject /\ untagged r)
  \/ (forall x y : Backend, P x y -> P x (IncrementFailure y)) ->
  Forall2 P before
    (LoadBalancer.backends (Proxy.ServeHTTP url_Parse h rt now lb w r).1.2).
Proof.
  intros Hbefore Hfail.
  pose proof (Director_stepwise url_Parse before lb now r Hbefore) as Hd.
  pose proof (Director_caller_ctx url_Parse lb now r) as Hctx.
  unfold Proxy.ServeHTTP.
  destruct (Proxy.outcome _); [|done..].
  destruct (Proxy.transport _ rt) as [|code payload].
  - apply ErrorHandler_stepwise; [done|].
    destruct Hfail as [[-> [_ Htag]]|Hfail]; [left|by right].
    cbn [Proxy.hooks_request]. by rewrite Hctx.
  - pose proof (ModifyResponse_stepwise before _
                  (Proxy.hooks_request h (Proxy.Director url_Parse lb now r)) Hd) as Hm.
    by destruct (Proxy.ModifyResponse _ _) as [[| |] lb'].
Qed.

End Stepwise.

Lemma Forall2_diag {A : Type} (R : A -> A -> Prop) (l : list A) :
  (forall x, R x x) -> Forall2 R l l.
Proof. intros HR. induction l; by constructor. Qed.

(** X11. No proxied request, whatever its outcome, adds, removes or
    reorders backends, changes a backend's URL, or makes an unhealthy
    backend healthy; and it leaves the strategy as one selection leaves
    it. *)
Theorem proxy_request_frame (url_Parse : string -> option url.t)
    (h : Proxy.Handoff) (rt : Proxy.RoundTrip) (now : Z)
    (lb : LoadBalancer.t) (w : http.ResponseWriter) (r : http.Request) :
  let lb' := (Proxy.ServeHTTP url_Parse h rt now lb w r).1.2 in
  same_targets (LoadBalancer.backends lb) (LoadBalancer.backends lb')
  /\ length (LoadBalancer.backends lb') = length (LoadBalancer.backends lb)
  /\ LoadBalancer.algorithm lb' = LoadBalancer.algorithm (LoadBalancer.NextBackend lb).2.
Proof.
  intros lb'.
  assert (Hsame : same_targets (LoadBalancer.backends lb) (LoadBalancer.backends lb')).
  { apply ServeHTTP_stepwise.
    - intros x y d [Hu Hh]. by split.
    - apply Forall2_diag. by split.
    - right. intros x y [Hu Hh]. split; [done|]. intros Hy. apply Hh.
      destruct (Healthy y) eqn:Hhy; [done|].
      by rewrite IncrementFailure_keeps_unhealthy in Hy. }
  split; [done|]. split.
  - symmetry. by eapply Forall2_length.
  - apply ServeHTTP_algorithm.
Qed.

(** X12. With the request object that Go passes to the hooks (the one
    [Director] was called on, which the rebinding at its end does not
    change), no proxied request changes the health flag or the failure
    counter of any backend: failures of forwarded calls are never
    counted. *)
Theorem caller_object_never_counts (url_Parse : string -> option url.t)
    (rt : Proxy.RoundTrip) (now : Z)
    (lb : LoadBalancer.t) (w : http.ResponseWriter) (r : http.Request) :
  untagged r ->
  health_fields
    (LoadBalancer.backends
       (Proxy.ServeHTTP url_Parse Proxy.CallerObject rt now lb w r).1.2)
  = health_fields (LoadBalancer.backends lb).
Proof.
  intros Hr.
  assert (Hsame : Forall2 (fun x y => Healthy y = Healthy x
                                      /\ failureCount y = failureCount x)
                    (LoadBalancer.backends lb)
                    (LoadBalancer.backends
                       (Proxy.ServeHTTP url_Parse Proxy.CallerObject rt now lb w r).1.2)).
  { apply ServeHTTP_stepwise.
    - by intros x y d [? ?].
    - by apply Forall2_diag.
    - by left. }
  unfold health_fields. induction Hsame as [|x y l k [Hh Hc] _ IH]; [done|].
  cbn [map]. by rewrite Hh, Hc, IH.
Qed.

Lemma caller_object_never_counts_witness :
  health_fields
    (LoadBalancer.backends
       (Proxy.ServeHTTP (fun _ => Some url.empty) Proxy.CallerObject
          Proxy.TransportError 0 main.lb http.fresh
          {| http.Method := "GET"; http.URL := url.empty; http.ctx := [] |}).1.2)
  = [(true, 0); (true, 0)].
Proof.
  apply (caller_object_never_counts (fun _ => Some url.empty) Proxy.TransportError 0
           main.lb http.fresh
           {| http.Method := "GET"; http.URL := url.empty; http.ctx := [] |}).
  split; reflexivity.
Defined.

(** ** The reverse proxy: what the client and the backend get *)

(** X13. When the selection finds no backend, the request is not forwarded
    and the client gets 502, with the balancer as the selection left it.
    The body depends on which request object reaches [ErrorHandler]: with
    the one Go passes (the caller's, which does not carry the error mark)
    it is ["Bad Gateway"]; only if the rebound request reached the hook
    would it be ["no healthy backend available"]. *)
Theorem no_backend_bad_gateway (url_Parse : string -> option url.t)
    (h : Proxy.Handoff) (rt : Proxy.RoundTrip) (now : Z)
    (lb lb1 : LoadBalancer.t) (w : http.ResponseWriter) (r : http.Request) :
  untagged r ->
  http.status w = None ->
  LoadBalancer.NextBackend lb = (Ok None, lb1) ->
  Proxy.ServeHTTP url_Parse h rt now lb w r
  = (Ok tt, lb1,
     {| http.status := Some http.StatusBadGateway;
        http.body :=
          String.append (http.body w)
            match h with
            | Proxy.CallerObject => "Bad Gateway"
            | Proxy.DirectorLocal => "no healthy backend available"
            end;
        http.superfluous := http.superfluous w |}).
Proof.
  intros [Herr Htag] Hw Hnext. unfold Proxy.ServeHTTP, Proxy.Director.
  rewrite Hnext. cbn [Proxy.outcome Proxy.caller_request Proxy.lb_after].
  unfold Proxy.transport. cbn [http.URL url.Scheme url.empty].
  rewrite bool_decide_eq_true_2 by done.
  unfold Proxy.ErrorHandler.
  destruct h; cbn [Proxy.hooks_request Proxy.caller_request Proxy.local_request
                   http.WithContext http.ctx].
  - rewrite Herr, Htag. unfold http.Write, http.WriteHeader. by rewrite Hw.
  - cbn [context.WithValue context.Value].
    rewrite bool_decide_eq_true_2 by done.
    unfold http.Write, http.WriteHeader. by rewrite Hw.
Qed.

Lemma no_backend_bad_gateway_witness :
  let down := {| URL := "http://localhost:8001"; Healthy := false;
                 failureCount := 0; ActiveConnections := 0 |} in
  let lb := {| LoadBalancer.backends := [down]; LoadBalancer.index := 0;
               LoadBalancer.algorithm := Some AlgoLeastConnection |} in
  Proxy.ServeHTTP (fun _ => None) Proxy.CallerObject (Proxy.Response 200 "ok") 0
    lb http.fresh
    {| http.Method := "GET"; http.URL := url.empty; http.ctx := [] |}
  = (Ok tt, lb,
     {| http.status := Some 502; http.body := "Bad Gateway";
        http.superfluous := 0 |}).
Proof.
  intros down lb.
  apply (no_backend_bad_gateway (fun _ => None) Proxy.CallerObject
           (Proxy.Response 200 "ok") 0 lb lb http.fresh
           {| http.Method := "GET"; http.URL := url.empty; http.ctx := [] |}).
  - split; reflexivity.
  - reflexivity.
  - reflexivity.
Defined.

(** X14. The request that goes out to a selected backend: [Director] keeps
    the method and the query, takes scheme and host from the backend's URL
    and puts the path of the backend's URL in front of the request's path. *)
Theorem Director_rewrites_target (url_Parse : string -> option url.t)
    (lb lb1 : LoadBalancer.t) (now : Z) (r : http.Request)
    (p : nat) (b : Backend) (target : url.t) :
  LoadBalancer.NextBackend lb = (Ok (Some p), lb1) ->
  LoadBalancer.backends lb !! p = Some b ->
  url_Parse (URL b) = Some target ->
  Proxy.caller_request (Proxy.Director url_Parse lb now r)
  = {| http.Method := http.Method r;
       http.URL := {| url.Scheme := url.Scheme target;
                      url.Host := url.Host target;
                      url.Path := String.append (url.Path target)
                                    (url.Path (http.URL r));
                      url.Query := url.Query (http.URL r) |};
       http.ctx := http.ctx r |}.
Proof.
  intros Hnext Hb Hparse.
  pose proof (NextBackend_backends lb) as [Hbs _]. rewrite Hnext in Hbs. cbn in Hbs.
  unfold Proxy.Director. rewrite Hnext.
  cbn [LoadBalancer.with_backends LoadBalancer.backends].
  rewrite Hbs, list_lookup_alter_eq, Hb. cbn [fmap option_fmap option_map].
  by rewrite AddActiveConnections_URL, Hparse.
Qed.

Lemma Director_rewrites_target_witness :
  let parse (s : string) : option url.t :=
    Some {| url.Scheme := "http"; url.Host := "localhost:8001";
            url.Path := "/api"; url.Query := [] |} in
  let get := {| http.Method := "GET";
                http.URL := {| url.Scheme := ""; url.Host := ""; url.Path := "/users";
                               url.Query := [("page", "2")] |};
                http.ctx := [] |} in
  http.URL (Proxy.caller_request (Proxy.Director parse main.lb 0 get))
  = {| url.Scheme := "http"; url.Host := "localhost:8001";
       url.Path := "/api/users"; url.Query := [("page", "2")] |}.
Proof.
  intros parse get.
  rewrite (Director_rewrites_target parse main.lb
             (LoadBalancer.NextBackend main.lb).2 0 get 0%nat
             {| URL := "http://localhost:8001"; Healthy := true;
                failureCount := 0; ActiveConnections := 0 |}
             {| url.Scheme := "http"; url.Host := "localhost:8001";
                url.Path := "/api"; url.Query := [] |});
    reflexivity.
Defined.

(** X15. A backend whose URL does not parse: [Director] ignores the error
    of [url.Parse] and dereferences the nil URL, so the request panics
    after the connection count of the selected backend was incremented;
    nothing is written to the client and the count is not given back. *)
Theorem unparsable_backend_URL (url_Parse : string -> option url.t)
    (h : Proxy.Handoff) (rt : Proxy.RoundTrip) (now : Z)
    (lb lb1 : LoadBalancer.t) (w : http.ResponseWriter) (r : http.Request)
    (p : nat) (b : Backend) :
  LoadBalancer.NextBackend lb = (Ok (Some p), lb1) ->
  LoadBalancer.backends lb !! p = Some b ->
  url_Parse (URL b) = None ->
  Proxy.ServeHTTP url_Parse h rt now lb w r
  = (Panic "nil pointer dereference",
     LoadBalancer.with_backends lb1
       (alter (AddActiveConnections 1) p (LoadBalancer.backends lb)),
     w).
Proof.
  intros Hnext Hb Hparse.
  pose proof (NextBackend_backends lb) as [Hbs _]. rewrite Hnext in Hbs. cbn in Hbs.
  unfold Proxy.ServeHTTP, Proxy.Director. rewrite Hnext.
  cbn [LoadBalancer.with_backends LoadBalancer.backends].
  rewrite Hbs, list_lookup_alter_eq, Hb. cbn [fmap option_fmap option_map].
  by rewrite AddActiveConnections_URL, Hparse.
Qed.

Lemma unparsable_backend_URL_witness :
  (Proxy.ServeHTTP (fun _ => None) Proxy.CallerObject (Proxy.Response 200 "ok") 0
     main.lb http.fresh
     {| http.Method := "GET"; http.URL := url.empty; http.ctx := [] |}).1.1
  = Panic "nil pointer dereference".
Proof.
  rewrite (unparsable_backend_URL (fun _ => None) Proxy.CallerObject
             (Proxy.Response 200 "ok") 0 main.lb
             (LoadBalancer.NextBackend main.lb).2 http.fresh
             {| http.Method := "GET"; http.URL := url.empty; http.ctx := [] |}
             0%nat
             {| URL := "http://localhost:8001"; Healthy := true;
                failureCount := 0; ActiveConnections := 0 |});
    reflexivity.
Defined.

(** ** The hooks: failures add up *)

Lemma complete_backends (p : nat) (lb : LoadBalancer.t) (c : completion) :
  LoadBalancer.backends (complete p lb c)
  = alter (match c with
           | CallFailed => IncrementFailure
           | CallAnswered => AddActiveConnections (-1)
           end) p (LoadBalancer.backends lb).
Proof. by destruct c. Qed.

Lemma failures_cons (c : completion) (cs : list completion) :
  failures (c :: cs) = (failures [c] + failures cs)%nat.
Proof.
  unfold failures. rewrite !filter_cons, filter_nil.
  by destruct (decide (c = CallFailed)).
Qed.

Lemma counted_step (k : nat) (b : Backend) (c : completion) :
  counted k b ->
  counted (failures [c] + k)
    (match c with
     | CallFailed => IncrementFailure
     | CallAnswered => AddActiveConnections (-1)
     end b).
Proof.
  unfold counted. intros Hk. destruct c.
  - change (failures [CallFailed]) with 1%nat.
    destruct Hk as [[Hlt Hc]|[Hge Hh]].
    + destruct (decide (k = 4%nat)) as [->|Hne].
      * right. split; [lia|]. apply IncrementFailure_reached. rewrite Hc.
        rewrite add_succ_small; lia.
      * left. split; [lia|]. rewrite IncrementFailure_count, Hc.
        rewrite add_succ_small; lia.
    + right. split; [lia|]. by apply IncrementFailure_keeps_unhealthy.
  - change (failures [CallAnswered]) with 0%nat. exact Hk.
Qed.

Lemma completions_counted (p : nat) (cs : list completion) :
  forall (lb : LoadBalancer.t) (b : Backend) (k : nat),
    LoadBalancer.backends lb !! p = Some b ->
    counted k b ->
    exists b' : Backend,
      LoadBalancer.backends (foldl (complete p) lb cs) !! p = Some b'
      /\ counted (failures cs + k) b'.
Proof.
  induction cs as [|c cs IH]; intros lb b k Hb Hk; [by exists b|].
  cbn [foldl].
  destruct (IH (complete p lb c)
              (match c with
               | CallFailed => IncrementFailure
               | CallAnswered => AddActiveConnections (-1)
               end b)
              (failures [c] + k)%nat)
    as (b' & Hb' & Hcount).
  { by rewrite complete_backends, list_lookup_alter_eq, Hb. }
  { by apply counted_step. }
  exists b'. split; [done|].
  rewrite failures_cons.
  by replace (failures [c] + failures cs + k)%nat
    with (failures cs + (failures [c] + k))%nat by lia.
Qed.

(** X16. The failure counter counts failures in total, not failures in a
    row: [ModifyResponse] does not reset it. Of the calls completed for one
    backend by the two hooks (each given a request that carries the
    backend), once five have failed the backend is unhealthy, however many
    answered calls came in between. *)
Theorem failures_add_up (p : nat) (lb : LoadBalancer.t) (b : Backend)
    (cs : list completion) :
  LoadBalancer.backends lb !! p = Some b ->
  failureCount b = 0 ->
  (5 <= failures cs)%nat ->
  exists b' : Backend,
    LoadBalancer.backends (foldl (complete p) lb cs) !! p = Some b'
    /\ Healthy b' = false.
Proof.
  intros Hb H0 Hfail.
  destruct (completions_counted p cs lb b 0 Hb) as (b' & Hb' & [[Hlt _]|[_ Hh]]).
  - left. split; [lia|]. by rewrite H0.
  - lia.
  - by exists b'.
Qed.

Lemma failures_add_up_witness :
  exists b' : Backend,
    LoadBalancer.backends
      (foldl (complete 1) main.lb
         [CallFailed; CallAnswered; CallFailed; CallFailed; CallAnswered;
          CallAnswered; CallFailed; CallFailed])
    !! 1%nat = Some b'
    /\ Healthy b' = false.
Proof.
  apply (failures_add_up 1 main.lb
           {| URL := "http://localhost:8002"; Healthy := true;
              failureCount := 0; ActiveConnections := 0 |}).
  - reflexivity.
  - reflexivity.
  - vm_compute. lia.
Defined.

(** ** The admin handler *)

Lemma ServeHTTP_state (lb : LoadBalancer.t) (w : http.ResponseWriter)
    (r : http.Request) :
  LoadBalancer.backends (LoadBalancer.ServeHTTP lb w r).1 = LoadBalancer.backends lb
  /\ LoadBalancer.index (LoadBalancer.ServeHTTP lb w r).1 = LoadBalancer.index lb.
Proof.
  unfold LoadBalancer.ServeHTTP.
  destruct (_ && _); [|done]. by repeat case_bool_decide.
Qed.

(** X17. What [LoadBalancer.ServeHTTP] can do, on a response not yet
    written to: it answers 200, 400 or 404 and never touches the backends;
    unless it answers 200 the balancer is unchanged; and when it answers
    200 the strategy is replaced by a strategy in its initial state whose
    [Name()] is the value of the request's [algorithm] parameter. *)
Theorem admin_handler_effect (lb : LoadBalancer.t) (w : http.ResponseWriter)
    (r : http.Request) :
  http.status w = None ->
  let lb' := (LoadBalancer.ServeHTTP lb w r).1 in
  let w' := (LoadBalancer.ServeHTTP lb w r).2 in
  LoadBalancer.backends lb' = LoadBalancer.backends lb
  /\ (http.status w' = Some http.StatusOK
      \/ http.status w' = Some http.StatusBadRequest
      \/ http.status w' = Some http.StatusNotFound)
  /\ (http.status w' <> Some http.StatusOK -> lb' = lb)
  /\ (http.status w' = Some http.StatusOK ->
      exists algo : BalancerAlgorithm,
        lb' = LoadBalancer.SetAlgorithm lb algo
        /\ (algo = AlgoRoundRobin RoundRobin.zero \/ algo = AlgoLeastConnection)
        /\ algorithm_Name algo = url.Get (url.Query (http.URL r)) "algorithm").
Proof.
  intros Hw lb' w'. subst lb' w'.
  split; [apply ServeHTTP_state|].
  rewrite (ServeHTTP_handler lb w r Hw). cbv zeta.
  rewrite !(WriteHeader_first w) by done.
  case_bool_decide as Hroute.
  2: { cbn. split; [by right; right|]. split; [done|]. discriminate. }
  case_bool_decide as Hrr.
  { cbn. split; [by left|]. split; [done|]. intros _.
    exists (AlgoRoundRobin RoundRobin.zero). split; [done|]. split; [by left|done]. }
  case_bool_decide as Hlc.
  { cbn. split; [by left|]. split; [done|]. intros _.
    exists AlgoLeastConnection. split; [done|]. split; [by right|done]. }
  cbn. split; [by right; left|]. split; [done|]. discriminate.
Qed.

Lemma admin_handler_effect_witness :
  let post := {| http.Method := "POST";
                 http.URL := {| url.Scheme := ""; url.Host := "";
                                url.Path := "/change-algorithm";
                                url.Query := [("algorithm", "round-robin")] |};
                 http.ctx := [] |} in
  exists algo : BalancerAlgorithm,
    (LoadBalancer.ServeHTTP main.lb http.fresh post).1
    = LoadBalancer.SetAlgorithm main.lb algo
    /\ algorithm_Name algo = "round-robin".
Proof.
  intros post.
  destruct (admin_handler_effect main.lb http.fresh post eq_refl)
    as (_ & _ & _ & Hok).
  destruct (Hok eq_refl) as (algo & Hlb & _ & Hname).
  exists algo. split; [exact Hlb | exact Hname].
Defined.

Lemma Get_absent (q : list (string * string)) (key : string) :
  Forall (fun kv => kv.1 <> key) q -> url.Get q key = "".
Proof.
  induction 1 as [|[k v] q Hk _ IH]; [done|].
  cbn [url.Get]. cbn in Hk. by rewrite bool_decide_eq_false_2.
Qed.

(** X18. A [POST /change-algorithm] without any [algorithm] parameter is
    answered 400 and changes nothing. *)
Theorem missing_algorithm_parameter (lb : LoadBalancer.t)
    (w : http.ResponseWriter) (r : http.Request) :
  http.status w = None ->
  http.Method r = "POST" ->
  url.Path (http.URL r) = "/change-algorithm" ->
  Forall (fun kv => kv.1 <> "algorithm") (url.Query (http.URL r)) ->
  LoadBalancer.ServeHTTP lb w r
  = (lb, {| http.status := Some http.StatusBadRequest; http.body := http.body w;
            http.superfluous := http.superfluous w |}).
Proof.
  intros Hw Hm Hp Hq. rewrite (ServeHTTP_handler lb w r Hw). cbv zeta.
  rewrite (Get_absent _ _ Hq), bool_decide_eq_true_2 by done.
  rewrite !bool_decide_eq_false_2 by done. by rewrite (WriteHeader_first w).
Qed.

Lemma missing_algorithm_parameter_witness :
  LoadBalancer.ServeHTTP main.lb http.fresh
    {| http.Method := "POST";
       http.URL := {| url.Scheme := ""; url.Host := "";
                      url.Path := "/change-algorithm";
                      url.Query := [("strategy", "round-robin")] |};
       http.ctx := [] |}
  = (main.lb, {| http.status := Some 400; http.body := ""; http.superfluous := 0 |}).
Proof.
  apply (missing_algorithm_parameter main.lb http.fresh).
  - reflexivity.
  - reflexivity.
  - reflexivity.
  - repeat constructor. discriminate.
Defined.

(** ** The server as a whole *)

Lemma step_stepwise (P : Backend -> Backend -> Prop)
    (url_Parse : string -> option url.t) (h : Proxy.Handoff)
    (lb : LoadBalancer.t) (e : event) (before : list Backend) :
  (forall (x y : Backend) (d : Z), P x y -> P x (AddActiveConnections d y)) ->
  (forall x y : Backend, P x y -> P x (IncrementFailure y)) ->
  (forall (x y : Backend) (res : LoadBalancer.ProbeResult),
      P x y -> P x (LoadBalancer.probed res y)) ->
  Forall2 P before (LoadBalancer.backends lb) ->
  Forall2 P before (LoadBalancer.backends (step url_Parse h lb e)).
Proof.
  intros Hcount Hfail Hprobe Hbefore. destruct e as [a|p res]; cbn [step].
  - unfold main.serve. destruct (main.mux _).
    + apply ServeHTTP_stepwise; auto.
    + pose proof (ServeHTTP_state lb http.fresh (request a)) as [Hbs _].
      destruct (LoadBalancer.ServeHTTP _ _ _) as [lb' w']. cbn in *. by rewrite Hbs.
  - unfold LoadBalancer.HealthCheckRound. cbn.
    apply Forall2_alter_r; [done|]. intros x y _ _. apply Hprobe.
Qed.

Lemma run_stepwise (P : Backend -> Backend -> Prop)
    (url_Parse : string -> option url.t) (h : Proxy.Handoff)
    (events : list event) :
  (forall (x y : Backend) (d : Z), P x y -> P x (AddActiveConnections d y)) ->
  (forall x y : Backend, P x y -> P x (IncrementFailure y)) ->
  (forall (x y : Backend) (res : LoadBalancer.ProbeResult),
      P x y -> P x (LoadBalancer.probed res y)) ->
  forall (lb : LoadBalancer.t) (before : list Backend),
    Forall2 P before (LoadBalancer.backends lb) ->
    Forall2 P before (LoadBalancer.backends (run url_Parse h lb events)).
Proof.
  intros Hcount Hfail Hprobe. unfold run.
  induction events as [|e events IH]; intros lb before Hbefore; [done|].
  cbn [foldl]. apply IH. by apply step_stepwise.
Qed.

(** X19. Whatever requests are served and probe rounds completed, in any
    order and with any outcomes, the server of [main] keeps its backend
    list fixed (the same URLs at the same positions) and, if every backend
    satisfied "unhealthy whenever the failure counter is at least 5" at the
    start, every backend satisfies it afterwards. *)
Theorem server_keeps_backends (url_Parse : string -> option url.t)
    (h : Proxy.Handoff) (lb : LoadBalancer.t) (events : list event) :
  Forall threshold_inv (LoadBalancer.backends lb) ->
  map URL (LoadBalancer.backends (run url_Parse h lb events))
  = map URL (LoadBalancer.backends lb)
  /\ Forall threshold_inv (LoadBalancer.backends (run url_Parse h lb events)).
Proof.
  intros Hinv.
  assert (Hrun : Forall2 (fun x y => URL y = URL x /\ (threshold_inv x -> threshold_inv y))
                   (LoadBalancer.backends lb)
                   (LoadBalancer.backends (run url_Parse h lb events))).
  { apply run_stepwise.
    - intros x y d [Hu Ht]. by split.
    - intros x y [Hu Ht]. split; [done|]. intros _.
      apply (apply_op_inv y OpIncrementFailure).
    - intros x y res [Hu Ht]. split; [|intros _; apply probed_inv].
      rewrite <- Hu. destruct res as [|code]; cbn; [done|]. by destruct (negb _).
    - apply Forall2_diag. by split. }
  induction Hrun as [|x y l k [Hu Ht] _ IH]; [done|].
  apply Forall_cons_1 in Hinv as [Hx Hl]. destruct (IH Hl) as [IHu IHt].
  cbn [map]. split; [by rewrite Hu, IHu|]. constructor; auto.
Qed.

Lemma server_keeps_backends_witness :
  let get := {| http.Method := "GET"; http.URL := url.empty; http.ctx := [] |} in
  map URL
    (LoadBalancer.backends
       (run (fun _ => Some url.empty) Proxy.DirectorLocal main.lb
          [Served (mkArrival 0 Proxy.TransportError get);
           Probed 0 LoadBalancer.ProbeError;
           Served (mkArrival 1 (Proxy.Response 200 "ok") get)]))
  = ["http://localhost:8001"; "http://localhost:8002"].
Proof.
  intros get.
  destruct (server_keeps_backends (fun _ => Some url.empty) Proxy.DirectorLocal main.lb
              [Served (mkArrival 0 Proxy.TransportError get);
               Probed 0 LoadBalancer.ProbeError;
               Served (mkArrival 1 (Proxy.Response 200 "ok") get)])
    as [Hurls _].
  - repeat constructor; unfold threshold_inv; cbn; lia.
  - exact Hurls.
Defined.

Lemma step_not_least_connection (url_Parse : string -> option url.t)
    (h : Proxy.Handoff) (lb : LoadBalancer.t) (e : event) :
  not_least_connection lb -> not_least_connection (step url_Parse h lb e).
Proof.
  intros Hlb. destruct e as [a|p res]; cbn [step]; [|done].
  unfold main.serve. destruct (main.mux _) eqn:Hmux.
  - unfold not_least_connection. rewrite ServeHTTP_algorithm.
    by apply NextBackend_not_least_connection.
  - by rewrite (mux_handler_not_found lb http.fresh (request a) Hmux).
Qed.

(** X20. In the server that [main] builds, the least-connection strategy
    never becomes active: unless the balancer starts with it, no sequence
    of requests (to any path, with any method and query) and probe rounds
    leaves the balancer with it. *)
Theorem least_connection_never_active (url_Parse : string -> option url.t)
    (h : Proxy.Handoff) (lb : LoadBalancer.t) (events : list event) :
  not_least_connection lb ->
  not_least_connection (run url_Parse h lb events).
Proof.
  unfold run. revert lb.
  induction events as [|e events IH]; intros lb Hlb; [done|].
  cbn [foldl]. by apply IH, step_not_least_connection.
Qed.

Lemma least_connection_never_active_witness :
  let post path :=
    {| http.Method := "POST";
       http.URL := {| url.Scheme := ""; url.Host := ""; url.Path := path;
                      url.Query := [("algorithm", "least-connection")] |};
       http.ctx := [] |} in
  not_least_connection
    (run (fun _ => Some url.empty) Proxy.CallerObject main.lb
       [Served (mkArrival 0 Proxy.TransportError (post "/admin/change-algorithm"));
        Served (mkArrival 1 Proxy.TransportError (post "/change-algorithm"))]).
Proof.
  intros post. apply least_connection_never_active. discriminate.
Defined.

(** ** Least connection and the connection counts *)







(** ** Round robin: no healthy backend is passed over for long *)

Lemma offset_after (n c p q : Z) :
  0 <= c < n -> 0 <= p < n -> 0 <= q < n -> p <> q ->
  ring_offset n c p <= ring_offset n c q ->
  0 <= ring_offset n (Z.rem (p + 1) n) q
  /\ ring_offset n (Z.rem (p + 1) n) q
     = ring_offset n c q - ring_offset n c p - 1.
Proof.
  intros Hc Hp Hq Hne Hle. unfold ring_offset in *.
  destruct (next_index n p Hp) as [[? ->]|[? ->]]; repeat case_bool_decide; lia.
Qed.

Lemma runs_lookup_S (backends : list Backend) (m k : nat) (rr : RoundRobin.t) :
  RoundRobin.calls (S m) backends rr !! S k
  = RoundRobin.calls m backends
      (RoundRobin.state (RoundRobin.NextBackend backends rr)) !! k.
Proof. reflexivity. Qed.

Lemma calls_more (backends : list Backend) (m m' k : nat) :
  forall (rr : RoundRobin.t) (r : RoundRobin.run),
    (m <= m')%nat ->
    RoundRobin.calls m backends rr !! k = Some r ->
    RoundRobin.calls m' backends rr !! k = Some r.
Proof.
  revert m' k. induction m as [|m IH]; intros m' k rr r Hle Hk; [done|].
  destruct m' as [|m']; [lia|]. destruct k as [|k]; [done|].
  rewrite runs_lookup_S in *. apply (IH m' k); [lia|done].
Qed.

Lemma reached_within (backends : list Backend) (q : nat) (b : Backend) :
  backends !! q = Some b ->
  IsHealthy b = true ->
  forall (d : nat) (rr : RoundRobin.t),
    in_bounds backends (RoundRobin.index rr) ->
    ring_offset (Z.of_nat (length backends)) (RoundRobin.index rr) (Z.of_nat q)
      <= Z.of_nat d ->
    exists (m : nat) (r : RoundRobin.run),
      (m <= d)%nat
      /\ RoundRobin.calls (S m) backends rr !! m = Some r
      /\ RoundRobin.ret r = Ok (Some q).
Proof.
  intros Hb Hh. pose proof (lookup_lt_Some _ _ _ Hb) as Hq.
  induction d as [|d IH]; intros rr Hrr Hd.
  all: destruct (NextBackend_safe backends rr Hrr) as ([res Hres] & _ & Hidx).
  all: destruct (NextBackend_ring backends rr Hrr) as [Hsome Hnone].
  all: destruct res as [p|];
    [|apply Hnone in Hres; rewrite Forall_forall in Hres;
      rewrite (Hres b) in Hh; [done|by eapply list_elem_of_lookup_2]].
  all: destruct (Hsome p Hres) as (Hp & _ & Hnew & Hskip).
  all: destruct (decide (p = q)) as [->|Hne];
    [exists 0%nat, (RoundRobin.NextBackend backends rr);
     split; [lia|]; by split|].
  all: assert (Hle : ring_offset (Z.of_nat (length backends)) (RoundRobin.index rr)
                       (Z.of_nat p)
                     <= ring_offset (Z.of_nat (length backends)) (RoundRobin.index rr)
                          (Z.of_nat q)).
  1,3: destruct (Z.le_gt_cases
                   (ring_offset (Z.of_nat (length backends)) (RoundRobin.index rr)
                      (Z.of_nat p))
                   (ring_offset (Z.of_nat (length backends)) (RoundRobin.index rr)
                      (Z.of_nat q))) as [|Hgt]; [done|];
    rewrite (Hskip (Z.of_nat q) b) in Hh;
      [done | unfold in_bounds; lia | lia | by rewrite Nat2Z.id].
  all: unfold in_bounds in *.
  all: pose proof (offset_after (Z.of_nat (length backends)) (RoundRobin.index rr)
                     (Z.of_nat p) (Z.of_nat q)) as Hoff.
  all: destruct Hoff as [Hoff0 Hoff]; [lia..|].
  - unfold ring_offset in Hle, Hd, Hoff0, Hoff.
    repeat case_bool_decide; lia.
  - destruct (IH (RoundRobin.state (RoundRobin.NextBackend backends rr)))
      as (m & r & Hm & Hr & Hret); [done| |].
    { rewrite Hnew. unfold ring_offset in *. repeat case_bool_decide; lia. }
    exists (S m), r. split; [lia|]. split; [|done].
    by rewrite runs_lookup_S.
Qed.

(** X22. No healthy backend is starved. On a slice whose health flags stay
    as they are, whatever they are, and with the cursor anywhere inside the
    slice, a healthy backend is returned by one of the next N calls of
    [RoundRobin.NextBackend], N being the number of backends. *)
Theorem round_robin_no_starvation (backends : list Backend) (rr : RoundRobin.t)
    (q : nat) (b : Backend) :
  in_bounds backends (RoundRobin.index rr) ->
  backends !! q = Some b ->
  IsHealthy b = true ->
  exists (m : nat) (r : RoundRobin.run),
    (m < length backends)%nat
    /\ RoundRobin.calls (length backends) backends rr !! m = Some r
    /\ RoundRobin.ret r = Ok (Some q).
Proof.
  intros Hrr Hb Hh. pose proof (lookup_lt_Some _ _ _ Hb) as Hq.
  destruct (reached_within backends q b Hb Hh (length backends - 1) rr Hrr)
    as (m & r & Hm & Hr & Hret).
  { unfold in_bounds, ring_offset in *. case_bool_decide; lia. }
  exists m, r. split; [lia|]. split; [|done].
  apply (calls_more backends (S m)); [lia|done].
Qed.

Lemma round_robin_no_starvation_witness :
  let down := {| URL := "http://localhost:8001"; Healthy := false;
                 failureCount := 5; ActiveConnections := 0 |} in
  let up := {| URL := "http://localhost:8002"; Healthy := true;
               failureCount := 0; ActiveConnections := 0 |} in
  exists (m : nat) (r : RoundRobin.run),
    (m < 4)%nat
    /\ RoundRobin.calls 4 [up; down; up; down] {| RoundRobin.index := 1 |} !! m = Some r
    /\ RoundRobin.ret r = Ok (Some 0%nat).
Proof.
  intros down up.
  apply (round_robin_no_starvation [up; down; up; down] {| RoundRobin.index := 1 |}
           0%nat up).
  - unfold in_bounds. cbn. lia.
  - reflexivity.
  - reflexivity.
Defined.

(** ** The reverse proxy: the connection count under Go's parameter passing *)

Lemma Director_backends (url_Parse : string -> option url.t)
    (lb : LoadBalancer.t) (now : Z) (r : http.Request) :
  LoadBalancer.backends (Proxy.lb_after (Proxy.Director url_Parse lb now r))
  = match (LoadBalancer.NextBackend lb).1 with
    | Ok (Some p) => alter (AddActiveConnections 1) p (LoadBalancer.backends lb)
    | _ => LoadBalancer.backends lb
    end.
Proof.
  pose proof (NextBackend_backends lb) as [Hbs _]. unfold Proxy.Director.
  destruct (LoadBalancer.NextBackend lb) as [[[p|]|msg|] lb1]; cbn [fst snd] in *;
    try done.
  cbn [LoadBalancer.with_backends LoadBalancer.backends]. rewrite Hbs.
  destruct (_ !! p) as [backend|]; [|done].
  by destruct (url_Parse (URL backend)).
Qed.

(** X23. With the request object that Go passes to the hooks, the only
    thing a proxied request does to the backends is the increment in
    [Director]: whenever a backend is selected its connection count goes up
    by one, and it stays up whether the forwarded call is answered (with
    any status) or fails, since neither hook finds a backend in the
    request's context. *)
Theorem caller_object_count_only_grows (url_Parse : string -> option url.t)
    (rt : Proxy.RoundTrip) (now : Z)
    (lb : LoadBalancer.t) (w : http.ResponseWriter) (r : http.Request) :
  untagged r ->
  LoadBalancer.backends
    (Proxy.ServeHTTP url_Parse Proxy.CallerObject rt now lb w r).1.2
  = match (LoadBalancer.NextBackend lb).1 with
    | Ok (Some p) => alter (AddActiveConnections 1) p (LoadBalancer.backends lb)
    | _ => LoadBalancer.backends lb
    end.
Proof.
  intros [Herr Htag]. rewrite <- (Director_backends url_Parse lb now r).
  pose proof (Director_caller_ctx url_Parse lb now r) as Hctx.
  unfold Proxy.ServeHTTP. destruct (Proxy.outcome _); [|done..].
  cbn [Proxy.hooks_request].
  destruct (Proxy.transport _ rt) as [|code payload].
  - unfold Proxy.ErrorHandler. by rewrite Hctx, Herr, Htag.
  - unfold Proxy.ModifyResponse. by rewrite Hctx, Htag.
Qed.

Lemma caller_object_count_only_grows_witness :
  map ActiveConnections
    (LoadBalancer.backends
       (Proxy.ServeHTTP
          (fun _ => Some {| url.Scheme := "http"; url.Host := "localhost:8001";
                            url.Path := ""; url.Query := [] |})
          Proxy.CallerObject (Proxy.Response 200 "ok") 0 main.lb http.fresh
          {| http.Method := "GET"; http.URL := url.empty; http.ctx := [] |}).1.2)
  = [1; 0].
Proof.
  rewrite (caller_object_count_only_grows
             (fun _ => Some {| url.Scheme := "http"; url.Host := "localhost:8001";
                               url.Path := ""; url.Query := [] |})
             (Proxy.Response 200 "ok") 0 main.lb http.fresh
             {| http.Method := "GET"; http.URL := url.empty; http.ctx := [] |}).
  - reflexivity.
  - split; reflexivity.
Defined.
